(** * FinApp: the superannuation projection engine

    A shallow embedding of [projectSuperannuationBalance] and
    [projectPostRetirement] (utils/superCalculations) together with the
    policy constants of [constants.ts] and the record types of [types.ts],
    of [runForecast] and the figures [SuperannuationSection] derives from
    its result, and of the totals, the deletion and the budget forecast of
    [BudgetingSection].

    Numbers.  The TypeScript source computes on IEEE doubles; the properties
    below are about the algorithm under exact arithmetic, so a monetary
    [number] is a rational [Q] and the decimal constants of the source
    ([0.115], [0.15]) are the rationals they denote.  Equations between
    computed amounts are stated with [==] (equality of rationals).  Ages,
    calendar years and the drawdown horizon are integer-valued numbers and
    are embedded as [Z].

    Effects.  The only effect of either projector is
    [new Date().getFullYear()], evaluated once per loop iteration.  It is
    modelled by a [Clock]: the calendar year returned by the n-th evaluation
    within one call.  Handlers that set React state return the new value of
    the state they set. *)

From Stdlib Require Import QArith Qminmax Qpower Lqa ZArith Lia List Bool.
From Stdlib Require String.
Import ListNotations.

Open Scope Q_scope.

(** ** JavaScript number operations used by the projectors *)

Module JS.

(** [a > b] and [a < b] on numbers. *)
Definition gt (a b : Q) : bool := negb (Qle_bool a b).
Definition lt (a b : Q) : bool := negb (Qle_bool b a).
(** [a >= b] and [a <= b]. *)
Definition ge (a b : Q) : bool := Qle_bool b a.
Definition le (a b : Q) : bool := Qle_bool a b.

Definition Math_min (a b : Q) : Q := if Qle_bool a b then a else b.
Definition Math_max (a b : Q) : Q := if Qle_bool a b then b else a.

End JS.

(** The calendar year read from the wall clock: [getFullYear n] is the value
    of the n-th evaluation of [new Date().getFullYear()] during a call. *)
Definition Clock := nat -> Z.

(** ** constants.ts *)

Definition SUPER_GUARANTEE_RATE : Q := 0.115.
Definition CONCESSIONAL_CONTRIBUTION_CAP : Q := 27500.
Definition NON_CONCESSIONAL_CONTRIBUTION_CAP : Q := 110000.
Definition TOTAL_SUPER_BALANCE_LIMIT_FOR_NON_CONCESSIONAL : Q := 1900000.
Definition SUPER_EARNINGS_TAX_RATE : Q := 0.15.

(** ** types.ts *)

Record SuperannuationInputs := mkSuperannuationInputs {
  currentAge : Z;
  retirementAge : Z;
  currentBalance : Q;
  annualSalary : Q;
  voluntaryConcessionalContribution : Q;
  voluntaryNonConcessionalContribution : Q;
  expectedReturnRate : Q;
  salaryGrowthRate : Q;
  inflationRate : Q
}.

Record PostRetirementInputs := mkPostRetirementInputs {
  annualLivingExpenses : Q;
  otherInvestmentIncome : Q;
  superDrawdownRate : option Q
}.

(** The two record types share field names ([year], [age],
    [startingBalance], ...); each lives in a module of its own. *)

Module SuperYear.
Record SuperYearProjection := mkSuperYearProjection {
  year : Z;
  age : Z;
  startingBalance : Q;
  sgContributions : Q;
  voluntaryConcessional : Q;
  voluntaryNonConcessional : Q;
  totalConcessional : Q;
  investmentReturns : Q;
  taxOnEarnings : Q;
  endingBalance : Q;
  concessionalCapExceededBy : option Q;
  nonConcessionalCapExceededBy : option Q
}.
End SuperYear.

Module PostYear.
Record PostRetirementYearProjection := mkPostRetirementYearProjection {
  year : Z;
  age : Z;
  startingBalance : Q;
  investmentReturns : Q;
  drawdown : Q;
  otherIncome : Q;
  totalIncome : Q;
  shortfall : option Q;
  endingBalance : Q
}.
End PostYear.

(** ** projectSuperannuationBalance *)

(** The cap of the year, [currentNonConcessionalCap] in the loop body. *)
Definition currentNonConcessionalCap (currentBalance : Q) : Q :=
  if JS.ge currentBalance TOTAL_SUPER_BALANCE_LIMIT_FOR_NON_CONCESSIONAL
  then 0 else NON_CONCESSIONAL_CONTRIBUTION_CAP.

(** One iteration of the [for] loop: the record pushed for [age], given the
    loop variables [currentBalance] and [currentSalary] and the year the
    clock returned. *)
Definition superYear (inputs : SuperannuationInputs) (thisYear : Z)
    (age : Z) (currentBalance currentSalary : Q)
    : SuperYear.SuperYearProjection :=
  let year := (thisYear + (age - currentAge inputs))%Z in
  let sgContributions := currentSalary * SUPER_GUARANTEE_RATE in
  let voluntaryConcessional := voluntaryConcessionalContribution inputs in
  let totalConcessional := sgContributions + voluntaryConcessional in
  let concessionalCapExceededBy :=
    if JS.gt totalConcessional CONCESSIONAL_CONTRIBUTION_CAP
    then Some (totalConcessional - CONCESSIONAL_CONTRIBUTION_CAP)
    else None in
  let voluntaryNonConcessional := voluntaryNonConcessionalContribution inputs in
  let currentNonConcessionalCap := currentNonConcessionalCap currentBalance in
  let nonConcessionalCapExceededBy :=
    if JS.gt voluntaryNonConcessional currentNonConcessionalCap
    then Some (voluntaryNonConcessional - currentNonConcessionalCap)
    else None in
  let effectiveNonConcessional :=
    JS.Math_min voluntaryNonConcessional currentNonConcessionalCap in
  let balanceBeforeReturns :=
    currentBalance + totalConcessional + effectiveNonConcessional in
  let investmentReturns :=
    balanceBeforeReturns * (expectedReturnRate inputs / 100) in
  let taxOnEarnings :=
    if JS.gt investmentReturns 0
    then investmentReturns * SUPER_EARNINGS_TAX_RATE else 0 in
  let endingBalance := balanceBeforeReturns + investmentReturns - taxOnEarnings in
  {| SuperYear.year := year;
     SuperYear.age := age;
     SuperYear.startingBalance := currentBalance;
     SuperYear.sgContributions := sgContributions;
     SuperYear.voluntaryConcessional := voluntaryConcessional;
     SuperYear.voluntaryNonConcessional := effectiveNonConcessional;
     SuperYear.totalConcessional := totalConcessional;
     SuperYear.investmentReturns := investmentReturns;
     SuperYear.taxOnEarnings := taxOnEarnings;
     SuperYear.endingBalance := endingBalance;
     SuperYear.concessionalCapExceededBy := concessionalCapExceededBy;
     SuperYear.nonConcessionalCapExceededBy := nonConcessionalCapExceededBy |}.

(** [for (let age = inputs.currentAge; age < inputs.retirementAge; age++)].
    [reads] counts the clock evaluations so far; [fuel] bounds the number of
    iterations and is never the reason the loop stops when it is at least
    [retirementAge - age] (lemma [superLoop_fuel]). *)
Fixpoint superLoop (getFullYear : Clock) (inputs : SuperannuationInputs)
    (fuel reads : nat) (age : Z) (currentBalance currentSalary : Q)
    : list SuperYear.SuperYearProjection :=
  match fuel with
  | O => []
  | S fuel' =>
      if (age <? retirementAge inputs)%Z then
        let p := superYear inputs (getFullYear reads) age
                   currentBalance currentSalary in
        p :: superLoop getFullYear inputs fuel' (S reads) (age + 1)%Z
               (SuperYear.endingBalance p)
               (currentSalary * (1 + salaryGrowthRate inputs / 100))
      else []
  end.

Definition projectSuperannuationBalance (getFullYear : Clock)
    (inputs : SuperannuationInputs)
    : list SuperYear.SuperYearProjection :=
  superLoop getFullYear inputs
    (Z.to_nat (retirementAge inputs - currentAge inputs)) 0
    (currentAge inputs) (currentBalance inputs) (annualSalary inputs).

(** ** projectPostRetirement *)

(** What one iteration of the drawdown loop computes from the loop variables
    [currentBalance] and [currentAnnualLivingExpenses]: the record it pushes
    and the local [endingBalance] (before the [Math.max(0, ...)] of the
    record), which decides the [break] and is carried forward. *)
Definition postYear (retirementAge : Z) (superInputs : SuperannuationInputs)
    (postRetirementInputs : PostRetirementInputs) (thisYear : Z) (i : Z)
    (currentBalance currentAnnualLivingExpenses : Q)
    : PostYear.PostRetirementYearProjection * Q :=
  let age := (retirementAge + i)%Z in
  let year := (thisYear + (age - currentAge superInputs))%Z in
  let investmentReturns :=
    currentBalance * (expectedReturnRate superInputs / 100) in
  let drawdown :=
    currentAnnualLivingExpenses - otherInvestmentIncome postRetirementInputs in
  let drawdown := if JS.lt drawdown 0 then 0 else drawdown in
  let drawdown := JS.Math_min drawdown (currentBalance + investmentReturns) in
  let balanceAfterReturns := currentBalance + investmentReturns in
  let drawdown :=
    JS.Math_min
      (currentAnnualLivingExpenses - otherInvestmentIncome postRetirementInputs)
      balanceAfterReturns in
  let drawdown := if JS.lt drawdown 0 then 0 else drawdown in
  let endingBalance := balanceAfterReturns - drawdown in
  let totalIncomeAvailable :=
    drawdown + otherInvestmentIncome postRetirementInputs in
  let shortfall :=
    if JS.gt currentAnnualLivingExpenses totalIncomeAvailable
    then Some (currentAnnualLivingExpenses - totalIncomeAvailable)
    else None in
  ({| PostYear.year := year;
      PostYear.age := age;
      PostYear.startingBalance := currentBalance;
      PostYear.investmentReturns := investmentReturns;
      PostYear.drawdown := drawdown;
      PostYear.otherIncome := otherInvestmentIncome postRetirementInputs;
      PostYear.totalIncome := totalIncomeAvailable;
      PostYear.shortfall := shortfall;
      PostYear.endingBalance := JS.Math_max 0 endingBalance |},
   endingBalance).

(** [for (let i = 0; i < maxYears; i++)] with its two [break]s.  The clock
    is read after the first [break], once per pushed record, so the number
    of reads so far is [i].  [fuel] is never the reason the loop stops when
    it is at least [maxYears - i] (lemma [postLoop_fuel]). *)
Fixpoint postLoop (getFullYear : Clock) (retirementAge : Z)
    (superInputs : SuperannuationInputs)
    (postRetirementInputs : PostRetirementInputs) (maxYears : Z)
    (fuel : nat) (i : Z) (currentBalance currentAnnualLivingExpenses : Q)
    : list PostYear.PostRetirementYearProjection :=
  match fuel with
  | O => []
  | S fuel' =>
      if (i <? maxYears)%Z then
        if JS.le currentBalance 0 && (0 <? i)%Z then []
        else
          let '(p, endingBalance) :=
            postYear retirementAge superInputs postRetirementInputs
              (getFullYear (Z.to_nat i)) i
              currentBalance currentAnnualLivingExpenses in
          if JS.le endingBalance 0 then [p]
          else
            p :: postLoop getFullYear retirementAge superInputs
                   postRetirementInputs maxYears fuel' (i + 1)%Z
                   endingBalance
                   (currentAnnualLivingExpenses
                    * (1 + inflationRate superInputs / 100))
      else []
  end.

Definition projectPostRetirement (getFullYear : Clock)
    (startingRetirementBalance : Q) (retirementAge : Z)
    (superInputs : SuperannuationInputs)
    (postRetirementInputs : PostRetirementInputs) (maxYears : Z)
    : list PostYear.PostRetirementYearProjection :=
  postLoop getFullYear retirementAge superInputs postRetirementInputs maxYears
    (Z.to_nat maxYears) 0%Z
    startingRetirementBalance (annualLivingExpenses postRetirementInputs).

(** The default of the optional last parameter, [maxYears: number = 35]. *)
Definition DEFAULT_MAX_YEARS : Z := 35.

(** ** SuperannuationSection.tsx: runForecast and the derived figures *)

(** [arr[arr.length - 1]]: the last element, [undefined] ([None]) on an
    empty array. *)
Definition lastOf {A : Type} (arr : list A) : option A :=
  nth_error arr (length arr - 1).

(** [runForecast]: the new values of the state variables [projections] and
    [postRetirementProjections].  The wall clock is shared by the two
    calls: the drawdown projector reads it after the accumulation projector
    has read it once per record.  [None] stands for the TypeError of
    reading [endingBalance] of [undefined]. *)
Definition runForecast (getFullYear : Clock) (inputs : SuperannuationInputs)
    (postRetirementInputs : PostRetirementInputs)
    : option (list SuperYear.SuperYearProjection
              * list PostYear.PostRetirementYearProjection) :=
  let preRetirement := projectSuperannuationBalance getFullYear inputs in
  if (0 <? length preRetirement)%nat then
    match lastOf preRetirement with
    | Some lastProjection =>
        let finalBalance := SuperYear.endingBalance lastProjection in
        let postRetirement :=
          projectPostRetirement
            (fun n => getFullYear (length preRetirement + n)%nat)
            finalBalance (retirementAge inputs) inputs postRetirementInputs
            DEFAULT_MAX_YEARS in
        Some (preRetirement, postRetirement)
    | None => None
    end
  else Some (preRetirement, []).

Definition estimatedRetirementBalance
    (projections : list SuperYear.SuperYearProjection)
    (inputs : SuperannuationInputs) : option Q :=
  if (0 <? length projections)%nat then
    option_map SuperYear.endingBalance (lastOf projections)
  else Some (currentBalance inputs).

Definition yearsInRetirement
    (postRetirementProjections : list PostYear.PostRetirementYearProjection)
    : nat :=
  length postRetirementProjections.

(** [superDepletesAtAge]: the age of the last drawdown record when its
    ending balance is [<= 0], [null] ([None]) otherwise. *)
Definition superDepletesAtAge
    (postRetirementProjections : list PostYear.PostRetirementYearProjection)
    : option Z :=
  if (0 <? length postRetirementProjections)%nat
     && match lastOf postRetirementProjections with
        | Some lastProjection =>
            JS.le (PostYear.endingBalance lastProjection) 0
        | None => false
        end
  then option_map PostYear.age (lastOf postRetirementProjections)
  else None.

(** ** BudgetingSection.tsx: totals, deletion and the budget forecast *)

Module Budget.

Inductive TransactionType := INCOME | EXPENSE.

Inductive RecurrenceFrequency :=
  DAILY | WEEKLY | FORTNIGHTLY | MONTHLY | YEARLY.

Record Transaction := mkTransaction {
  id : String.string;
  type : TransactionType;
  category : String.string;
  amount : Q;
  date : String.string;
  description : String.string;
  isRecurring : option bool;
  recurrenceFrequency : option RecurrenceFrequency;
  recurrenceEndDate : option String.string
}.

(** [t.type === TransactionType.INCOME] and [=== TransactionType.EXPENSE]. *)
Definition isIncome (t : Transaction) : bool :=
  match type t with INCOME => true | EXPENSE => false end.
Definition isExpense (t : Transaction) : bool :=
  match type t with EXPENSE => true | INCOME => false end.

(** [.filter(...).reduce((sum, t) => sum + t.amount, 0)]. *)
Definition totalIncome (filteredTransactions : list Transaction) : Q :=
  fold_left (fun sum t => sum + amount t)
    (filter isIncome filteredTransactions) 0.
Definition totalExpenses (filteredTransactions : list Transaction) : Q :=
  fold_left (fun sum t => sum + amount t)
    (filter isExpense filteredTransactions) 0.
Definition netBalance (filteredTransactions : list Transaction) : Q :=
  totalIncome filteredTransactions - totalExpenses filteredTransactions.

(** [handleDeleteTransaction]: the new value of [transactions], given the
    answer of [window.confirm]. *)
Definition handleDeleteTransaction (confirm : bool)
    (targetId : String.string)
    (transactions : list Transaction) : list Transaction :=
  if confirm then
    filter (fun t => negb (String.eqb (id t) targetId)) transactions
  else transactions.

Inductive BaselineSource := Manual | Transactions.

Record BudgetForecastInputs := mkBudgetForecastInputs {
  baselineSource : BaselineSource;
  baselineAnnualIncome : Q;
  baselineAnnualExpenses : Q;
  forecastYears : Z;
  incomeGrowthRate : Q;
  expenseGrowthRate : Q
}.

Record ProjectedBudgetYear := mkProjectedBudgetYear {
  year : Z;
  actualYear : Z;
  projectedIncome : Q;
  projectedExpenses : Q;
  projectedNetBalance : Q
}.

(** [for (let i = 0; i < forecastInputs.forecastYears; i++)] of
    [handleGenerateForecast]. *)
Fixpoint forecastLoop (forecastInputs : BudgetForecastInputs)
    (currentActualYear : Z) (fuel : nat) (i : Z)
    (currentIncome currentExpenses : Q) : list ProjectedBudgetYear :=
  match fuel with
  | O => []
  | S fuel' =>
      if (i <? forecastYears forecastInputs)%Z then
        let currentIncome :=
          if (0 <? i)%Z
          then currentIncome * (1 + incomeGrowthRate forecastInputs / 100)
          else currentIncome in
        let currentExpenses :=
          if (0 <? i)%Z
          then currentExpenses * (1 + expenseGrowthRate forecastInputs / 100)
          else currentExpenses in
        let net := currentIncome - currentExpenses in
        {| year := (i + 1)%Z;
           actualYear := (currentActualYear + i)%Z;
           projectedIncome := currentIncome;
           projectedExpenses := currentExpenses;
           projectedNetBalance := net |}
        :: forecastLoop forecastInputs currentActualYear fuel' (i + 1)%Z
             currentIncome currentExpenses
      else []
  end.

(** Number of growth steps applied up to the record at offset [k] of a
    loop entered at index [i]: none in the iteration [i = 0]. *)
Definition growthSteps (i : Z) (k : nat) : nat :=
  if (0 <? i)%Z then S k else k.

(** [handleGenerateForecast]: the new value of [projectedBudgetData];
    [None] is the [null] set after the alert.  The clock is read once,
    before the loop. *)
Definition handleGenerateForecast (getFullYear : Clock)
    (forecastInputs : BudgetForecastInputs)
    (annualizedIncomeFromTransactions : option Q)
    (annualizedExpensesFromTransactions : option Q)
    (transactions : list Transaction)
    : option (list ProjectedBudgetYear) :=
  let generate (baseIncome baseExpenses : Q) :=
    Some (forecastLoop forecastInputs (getFullYear 0%nat)
            (Z.to_nat (forecastYears forecastInputs)) 0%Z
            baseIncome baseExpenses) in
  match baselineSource forecastInputs with
  | Transactions =>
      match annualizedIncomeFromTransactions,
            annualizedExpensesFromTransactions with
      | Some income, Some expenses =>
          if (0 <? length transactions)%nat
          then generate income expenses
          else None
      | _, _ => None
      end
  | Manual =>
      generate (baselineAnnualIncome forecastInputs)
        (baselineAnnualExpenses forecastInputs)
  end.

(** [initialForecastInputs]. *)
Definition initialForecastInputs : BudgetForecastInputs :=
  {| baselineSource := Manual;
     baselineAnnualIncome := 60000;
     baselineAnnualExpenses := 40000;
     forecastYears := 5;
     incomeGrowthRate := 2;
     expenseGrowthRate := 3 |}.

(** A two-year forecast in surplus, income growing faster than expenses. *)
Definition surplusForecastInputs : BudgetForecastInputs :=
  {| baselineSource := Manual;
     baselineAnnualIncome := 60000;
     baselineAnnualExpenses := 40000;
     forecastYears := 2;
     incomeGrowthRate := 3;
     expenseGrowthRate := 2 |}.

End Budget.

Module BudgetSamples.

Import String.

(** Three transactions, two of them sharing an id. *)
Definition sampleTransactions : list Budget.Transaction :=
  [ {| Budget.id := "a"%string; Budget.type := Budget.INCOME;
       Budget.category := "Salary"%string; Budget.amount := 5000;
       Budget.date := "2024-07-01"%string; Budget.description := "pay"%string;
       Budget.isRecurring := None; Budget.recurrenceFrequency := None;
       Budget.recurrenceEndDate := None |};
    {| Budget.id := "b"%string; Budget.type := Budget.EXPENSE;
       Budget.category := "Housing"%string; Budget.amount := 1200;
       Budget.date := "2024-07-03"%string; Budget.description := "rent"%string;
       Budget.isRecurring := None; Budget.recurrenceFrequency := None;
       Budget.recurrenceEndDate := None |};
    {| Budget.id := "a"%string; Budget.type := Budget.EXPENSE;
       Budget.category := "Groceries"%string; Budget.amount := 300;
       Budget.date := "2024-07-05"%string; Budget.description := "food"%string;
       Budget.isRecurring := None; Budget.recurrenceFrequency := None;
       Budget.recurrenceEndDate := None |} ].

(** The id shared by the first and the last of them. *)
Definition sampleId : String.string := "a"%string.

End BudgetSamples.

(** ** Vocabulary of the properties *)

(** The balance a drawdown year ends with before the record floors it at
    zero: [balanceAfterReturns - drawdown], read back from the record. *)
Definition computedEndingBalance (r : PostYear.PostRetirementYearProjection) : Q :=
  PostYear.startingBalance r + PostYear.investmentReturns r - PostYear.drawdown r.

(** Living expenses of drawdown year [n]: the loop variable
    [currentAnnualLivingExpenses] after [n] completed iterations. *)
Fixpoint livingExpensesAfter (superInputs : SuperannuationInputs)
    (n : nat) (expenses : Q) : Q :=
  match n with
  | O => expenses
  | S n' =>
      livingExpensesAfter superInputs n'
        (expenses * (1 + inflationRate superInputs / 100))
  end.

(** Salary of accumulation year [n]: the loop variable [currentSalary]
    after [n] completed iterations. *)
Fixpoint salaryAfter (inputs : SuperannuationInputs) (n : nat) (salary : Q)
    : Q :=
  match n with
  | O => salary
  | S n' =>
      salaryAfter inputs n' (salary * (1 + salaryGrowthRate inputs / 100))
  end.

(** A record with its calendar year blanked, to compare everything but
    the field that comes from the clock. *)
Definition superWithoutYear (r : SuperYear.SuperYearProjection)
    : SuperYear.SuperYearProjection :=
  {| SuperYear.year := 0;
     SuperYear.age := SuperYear.age r;
     SuperYear.startingBalance := SuperYear.startingBalance r;
     SuperYear.sgContributions := SuperYear.sgContributions r;
     SuperYear.voluntaryConcessional := SuperYear.voluntaryConcessional r;
     SuperYear.voluntaryNonConcessional := SuperYear.voluntaryNonConcessional r;
     SuperYear.totalConcessional := SuperYear.totalConcessional r;
     SuperYear.investmentReturns := SuperYear.investmentReturns r;
     SuperYear.taxOnEarnings := SuperYear.taxOnEarnings r;
     SuperYear.endingBalance := SuperYear.endingBalance r;
     SuperYear.concessionalCapExceededBy := SuperYear.concessionalCapExceededBy r;
     SuperYear.nonConcessionalCapExceededBy :=
       SuperYear.nonConcessionalCapExceededBy r |}.

Definition postWithoutYear (r : PostYear.PostRetirementYearProjection)
    : PostYear.PostRetirementYearProjection :=
  {| PostYear.year := 0;
     PostYear.age := PostYear.age r;
     PostYear.startingBalance := PostYear.startingBalance r;
     PostYear.investmentReturns := PostYear.investmentReturns r;
     PostYear.drawdown := PostYear.drawdown r;
     PostYear.otherIncome := PostYear.otherIncome r;
     PostYear.totalIncome := PostYear.totalIncome r;
     PostYear.shortfall := PostYear.shortfall r;
     PostYear.endingBalance := PostYear.endingBalance r |}.

(** ** Sample inputs *)

(** [DEFAULT_SUPER_INPUTS] and [DEFAULT_POST_RETIREMENT_INPUTS] of
    constants.ts. *)
Definition DEFAULT_SUPER_INPUTS : SuperannuationInputs :=
  {| currentAge := 30; retirementAge := 67;
     currentBalance := 50000; annualSalary := 80000;
     voluntaryConcessionalContribution := 0;
     voluntaryNonConcessionalContribution := 0;
     expectedReturnRate := 7; salaryGrowthRate := 3; inflationRate := 2.5 |}.

Definition DEFAULT_POST_RETIREMENT_INPUTS : PostRetirementInputs :=
  {| annualLivingExpenses := 60000; otherInvestmentIncome := 0;
     superDrawdownRate := None |}.

(** One working year from nothing: salary 80000, no voluntary contribution,
    no return. *)
Definition oneYearInputs : SuperannuationInputs :=
  {| currentAge := 30; retirementAge := 31;
     currentBalance := 0; annualSalary := 80000;
     voluntaryConcessionalContribution := 0;
     voluntaryNonConcessionalContribution := 0;
     expectedReturnRate := 0; salaryGrowthRate := 0; inflationRate := 0 |}.

(** One year of a high earner above the total-super-balance limit: both
    caps are exceeded and the return rate is 7. *)
Definition highEarnerInputs : SuperannuationInputs :=
  {| currentAge := 50; retirementAge := 51;
     currentBalance := 2000000; annualSalary := 300000;
     voluntaryConcessionalContribution := 10000;
     voluntaryNonConcessionalContribution := 200000;
     expectedReturnRate := 7; salaryGrowthRate := 3; inflationRate := 2.5 |}.

(** Three years at a return rate of -200 from a balance of 1000. *)
Definition crashInputs : SuperannuationInputs :=
  {| currentAge := 30; retirementAge := 33;
     currentBalance := 1000; annualSalary := 0;
     voluntaryConcessionalContribution := 0;
     voluntaryNonConcessionalContribution := 0;
     expectedReturnRate := -200; salaryGrowthRate := 0; inflationRate := 0 |}.

(** Retirement assumptions with no return and no inflation. *)
Definition flatInputs : SuperannuationInputs :=
  {| currentAge := 30; retirementAge := 67;
     currentBalance := 0; annualSalary := 80000;
     voluntaryConcessionalContribution := 0;
     voluntaryNonConcessionalContribution := 0;
     expectedReturnRate := 0; salaryGrowthRate := 0; inflationRate := 0 |}.

(** Two years that start above the total-super-balance limit. *)
Definition twoYearInputs : SuperannuationInputs :=
  {| currentAge := 50; retirementAge := 52;
     currentBalance := 2000000; annualSalary := 100000;
     voluntaryConcessionalContribution := 0;
     voluntaryNonConcessionalContribution := 50000;
     expectedReturnRate := 5; salaryGrowthRate := 0; inflationRate := 0 |}.

(** Other income above the living expenses. *)
Definition coveredPostInputs : PostRetirementInputs :=
  {| annualLivingExpenses := 40000; otherInvestmentIncome := 50000;
     superDrawdownRate := None |}.

(** A clock that stays in one calendar year. *)
Definition clockAt (y : Z) : Clock := fun _ => y.

(** * Properties *)

(** ** Comparisons and min/max *)

Lemma Qle_bool_false (a b : Q) : Qle_bool a b = false <-> b < a.
Proof.
  split; intro H.
  - apply Qnot_le_lt. intro Hle. apply Qle_bool_iff in Hle. congruence.
  - destruct (Qle_bool a b) eqn:E; [|reflexivity].
    apply Qle_bool_iff in E. lra.
Qed.

Lemma gt_true (a b : Q) : JS.gt a b = true <-> b < a.
Proof.
  unfold JS.gt. rewrite negb_true_iff. apply Qle_bool_false.
Qed.

Lemma gt_false (a b : Q) : JS.gt a b = false <-> a <= b.
Proof.
  unfold JS.gt. rewrite negb_false_iff. apply Qle_bool_iff.
Qed.

Lemma lt_true (a b : Q) : JS.lt a b = true <-> a < b.
Proof.
  unfold JS.lt. rewrite negb_true_iff. apply Qle_bool_false.
Qed.

Lemma lt_false (a b : Q) : JS.lt a b = false <-> b <= a.
Proof.
  unfold JS.lt. rewrite negb_false_iff. apply Qle_bool_iff.
Qed.

Lemma le_true (a b : Q) : JS.le a b = true <-> a <= b.
Proof. apply Qle_bool_iff. Qed.

Lemma le_false (a b : Q) : JS.le a b = false <-> b < a.
Proof. apply Qle_bool_false. Qed.

Lemma ge_true (a b : Q) : JS.ge a b = true <-> b <= a.
Proof. apply Qle_bool_iff. Qed.

Lemma ge_false (a b : Q) : JS.ge a b = false <-> a < b.
Proof. apply Qle_bool_false. Qed.

Lemma Math_min_cases (a b : Q) :
  (a <= b /\ JS.Math_min a b = a) \/ (b < a /\ JS.Math_min a b = b).
Proof.
  unfold JS.Math_min. destruct (Qle_bool a b) eqn:E.
  - left. split; [now apply Qle_bool_iff | reflexivity].
  - right. split; [now apply Qle_bool_false | reflexivity].
Qed.

Lemma Math_max_cases (a b : Q) :
  (a <= b /\ JS.Math_max a b = b) \/ (b < a /\ JS.Math_max a b = a).
Proof.
  unfold JS.Math_max. destruct (Qle_bool a b) eqn:E.
  - left. split; [now apply Qle_bool_iff | reflexivity].
  - right. split; [now apply Qle_bool_false | reflexivity].
Qed.

(** Turns the boolean tests of a hypothesis or of the goal into
    propositions, one branch at a time. *)
Ltac js_test b :=
  let E := fresh "E" in
  destruct b eqn:E;
  [ first [ apply gt_true in E | apply lt_true in E
          | apply le_true in E | apply ge_true in E ]
  | first [ apply gt_false in E | apply lt_false in E
          | apply le_false in E | apply ge_false in E ] ].

Ltac js_min a b :=
  let H := fresh "Hmin" in
  let E := fresh "Emin" in
  destruct (Math_min_cases a b) as [[H E] | [H E]]; rewrite E in *.

Ltac js_max a b :=
  let H := fresh "Hmax" in
  let E := fresh "Emax" in
  destruct (Math_max_cases a b) as [[H E] | [H E]]; rewrite E in *.

(** ** The accumulation loop *)

(** Every record of the accumulation loop is the record [superYear] builds
    from some state of the loop. *)
Lemma superLoop_In (clk : Clock) (inputs : SuperannuationInputs)
    (fuel : nat) :
  forall reads age bal sal r,
    In r (superLoop clk inputs fuel reads age bal sal) ->
    exists y a b s, r = superYear inputs y a b s.
Proof.
  induction fuel as [|fuel IH]; intros reads age bal sal r Hin;
    simpl in Hin.
  - contradiction.
  - destruct (age <? retirementAge inputs)%Z; [|contradiction].
    destruct Hin as [<- | Hin].
    + now exists (clk reads), age, bal, sal.
    + eapply IH; eassumption.
Qed.

Lemma projectSuperannuationBalance_In (clk : Clock)
    (inputs : SuperannuationInputs) (r : SuperYear.SuperYearProjection) :
  In r (projectSuperannuationBalance clk inputs) ->
  exists y a b s, r = superYear inputs y a b s.
Proof. apply superLoop_In. Qed.

(** More fuel than the age range needs changes nothing: the loop stops on
    its own test [age < retirementAge]. *)
Lemma superLoop_fuel (clk : Clock) (inputs : SuperannuationInputs)
    (fuel : nat) :
  forall extra reads age bal sal,
    (Z.to_nat (retirementAge inputs - age) <= fuel)%nat ->
    superLoop clk inputs (fuel + extra) reads age bal sal
    = superLoop clk inputs fuel reads age bal sal.
Proof.
  induction fuel as [|fuel IH]; intros extra reads age bal sal Hfuel.
  - destruct extra as [|extra]; [reflexivity|]. simpl.
    destruct (Z.ltb_spec age (retirementAge inputs)); [lia | reflexivity].
  - simpl.
    destruct (Z.ltb_spec age (retirementAge inputs)); [|reflexivity].
    f_equal. apply IH. lia.
Qed.

(** C1.  Every record returned by [projectSuperannuationBalance] satisfies
    endingBalance = startingBalance + totalConcessional
    + voluntaryNonConcessional (the stored, capped amount)
    + investmentReturns - taxOnEarnings, exactly, over the rationals. *)
Theorem C1_ending_balance_equation (clk : Clock)
    (inputs : SuperannuationInputs) (r : SuperYear.SuperYearProjection) :
  In r (projectSuperannuationBalance clk inputs) ->
  SuperYear.endingBalance r
  == SuperYear.startingBalance r + SuperYear.totalConcessional r
     + SuperYear.voluntaryNonConcessional r
     + SuperYear.investmentReturns r - SuperYear.taxOnEarnings r.
Proof.
  intros Hin.
  destruct (projectSuperannuationBalance_In _ _ _ Hin)
    as (y & a & b & s & ->).
  simpl. reflexivity.
Qed.

Lemma C1_ending_balance_equation_witness :
  let r := superYear oneYearInputs 2024 30 0 80000 in
  SuperYear.endingBalance r
  == SuperYear.startingBalance r + SuperYear.totalConcessional r
     + SuperYear.voluntaryNonConcessional r
     + SuperYear.investmentReturns r - SuperYear.taxOnEarnings r.
Proof.
  apply (C1_ending_balance_equation (clockAt 2024) oneYearInputs).
  left. reflexivity.
Defined.

(** ** The caps *)

(** C4.  In every record of [projectSuperannuationBalance],
    concessionalCapExceededBy is present exactly when sgContributions +
    voluntaryConcessionalContribution exceeds the concessional cap (27500);
    when present it is that excess; and the full, uncapped total is what
    enters the balance: it is the record's totalConcessional, the returns
    are earned on it and the ending balance contains it. *)
Theorem C4_concessional_cap_flag (clk : Clock)
    (inputs : SuperannuationInputs) (r : SuperYear.SuperYearProjection) :
  In r (projectSuperannuationBalance clk inputs) ->
  let total :=
    SuperYear.sgContributions r + voluntaryConcessionalContribution inputs in
  (SuperYear.concessionalCapExceededBy r <> None <-> 27500 < total)
  /\ (forall x, SuperYear.concessionalCapExceededBy r = Some x ->
                x == total - 27500)
  /\ SuperYear.totalConcessional r == total
  /\ SuperYear.investmentReturns r
     == (SuperYear.startingBalance r + total
         + SuperYear.voluntaryNonConcessional r)
        * (expectedReturnRate inputs / 100)
  /\ SuperYear.endingBalance r
     == SuperYear.startingBalance r + total
        + SuperYear.voluntaryNonConcessional r
        + SuperYear.investmentReturns r - SuperYear.taxOnEarnings r.
Proof.
  intros Hin.
  destruct (projectSuperannuationBalance_In _ _ _ Hin)
    as (y & a & b & s & ->).
  cbn [superYear SuperYear.sgContributions SuperYear.totalConcessional
       SuperYear.concessionalCapExceededBy SuperYear.investmentReturns
       SuperYear.startingBalance SuperYear.voluntaryNonConcessional
       SuperYear.endingBalance SuperYear.taxOnEarnings].
  unfold CONCESSIONAL_CONTRIBUTION_CAP.
  repeat split; try reflexivity.
  - intros Hsome.
    js_test (JS.gt (s * SUPER_GUARANTEE_RATE
                    + voluntaryConcessionalContribution inputs) 27500);
      [assumption | congruence].
  - intros Hgt.
    js_test (JS.gt (s * SUPER_GUARANTEE_RATE
                    + voluntaryConcessionalContribution inputs) 27500);
      [discriminate | lra].
  - intros x Hx.
    js_test (JS.gt (s * SUPER_GUARANTEE_RATE
                    + voluntaryConcessionalContribution inputs) 27500);
      [|discriminate].
    injection Hx as <-. reflexivity.
Qed.

Lemma C4_concessional_cap_flag_witness :
  let r := superYear highEarnerInputs 2024 50 2000000 300000 in
  SuperYear.concessionalCapExceededBy r <> None
  <-> 27500 < SuperYear.sgContributions r
              + voluntaryConcessionalContribution highEarnerInputs.
Proof.
  apply (C4_concessional_cap_flag (clockAt 2024) highEarnerInputs).
  left. reflexivity.
Defined.

(** The effective non-concessional cap of a year depends only on where the
    year's starting balance stands against the total-super-balance limit. *)
Lemma currentNonConcessionalCap_cases (b : Q) :
  (1900000 <= b /\ currentNonConcessionalCap b = 0)
  \/ (b < 1900000 /\ currentNonConcessionalCap b = 110000).
Proof.
  unfold currentNonConcessionalCap,
    TOTAL_SUPER_BALANCE_LIMIT_FOR_NON_CONCESSIONAL,
    NON_CONCESSIONAL_CONTRIBUTION_CAP.
  js_test (JS.ge b 1900000); [left | right]; split; auto.
Qed.

(** C5.  In every simulated year the effective non-concessional cap is 0
    when the year's starting balance is at or above the total-super-balance
    limit (1900000) and the standard cap (110000) otherwise; the record's
    voluntaryNonConcessional is the minimum of the input amount and that
    cap; nonConcessionalCapExceededBy is present exactly when the input
    amount exceeds the cap, and is then the excess. *)
Theorem C5_non_concessional_cap (clk : Clock)
    (inputs : SuperannuationInputs) (r : SuperYear.SuperYearProjection) :
  In r (projectSuperannuationBalance clk inputs) ->
  let v := voluntaryNonConcessionalContribution inputs in
  let cap := currentNonConcessionalCap (SuperYear.startingBalance r) in
  (1900000 <= SuperYear.startingBalance r -> cap = 0)
  /\ (SuperYear.startingBalance r < 1900000 -> cap = 110000)
  /\ SuperYear.voluntaryNonConcessional r == Qmin v cap
  /\ (SuperYear.nonConcessionalCapExceededBy r <> None <-> cap < v)
  /\ (forall x, SuperYear.nonConcessionalCapExceededBy r = Some x ->
                x == v - cap).
Proof.
  intros Hin.
  destruct (projectSuperannuationBalance_In _ _ _ Hin)
    as (y & a & b & s & ->).
  cbn [superYear SuperYear.startingBalance SuperYear.voluntaryNonConcessional
       SuperYear.nonConcessionalCapExceededBy].
  set (v := voluntaryNonConcessionalContribution inputs).
  set (cap := currentNonConcessionalCap b).
  split; [|split; [|split; [|split]]].
  - intros Hb. subst cap.
    destruct (currentNonConcessionalCap_cases b) as [[_ E] | [Hlt _]];
      [exact E | lra].
  - intros Hb. subst cap.
    destruct (currentNonConcessionalCap_cases b) as [[Hle _] | [_ E]];
      [lra | exact E].
  - destruct (Math_min_cases v cap) as [[H E] | [H E]]; rewrite E.
    + symmetry. apply Q.min_l. exact H.
    + symmetry. apply Q.min_r. lra.
  - js_test (JS.gt v cap); split; intro H;
      try assumption; try congruence; try discriminate; lra.
  - intros x Hx. js_test (JS.gt v cap); [|discriminate].
    injection Hx as <-. reflexivity.
Qed.

Lemma C5_non_concessional_cap_witness :
  let r := superYear highEarnerInputs 2024 50 2000000 300000 in
  SuperYear.voluntaryNonConcessional r
  == Qmin (voluntaryNonConcessionalContribution highEarnerInputs)
          (currentNonConcessionalCap (SuperYear.startingBalance r)).
Proof.
  apply (C5_non_concessional_cap (clockAt 2024) highEarnerInputs).
  left. reflexivity.
Defined.

(** ** Earnings tax *)

(** C7.  In every accumulation year taxOnEarnings is investmentReturns x
    0.15 when the returns are positive and 0 otherwise.  Consequently a
    single-year accumulation at an expected return rate of 7, from
    non-negative balance, salary and contributions, with balance before
    returns B, has investmentReturns = 0.07 B, taxOnEarnings = 0.15 x 0.07
    B and endingBalance = 1.0595 B. *)
Theorem C7_earnings_tax (clk : Clock) (inputs : SuperannuationInputs) :
  (forall r, In r (projectSuperannuationBalance clk inputs) ->
     (0 < SuperYear.investmentReturns r ->
      SuperYear.taxOnEarnings r == SuperYear.investmentReturns r * 0.15)
     /\ (SuperYear.investmentReturns r <= 0 ->
         SuperYear.taxOnEarnings r == 0))
  /\ (retirementAge inputs = (currentAge inputs + 1)%Z ->
      expectedReturnRate inputs == 7 ->
      0 <= currentBalance inputs -> 0 <= annualSalary inputs ->
      0 <= voluntaryConcessionalContribution inputs ->
      0 <= voluntaryNonConcessionalContribution inputs ->
      exists r,
        projectSuperannuationBalance clk inputs = [r]
        /\ let B := SuperYear.startingBalance r
                    + SuperYear.totalConcessional r
                    + SuperYear.voluntaryNonConcessional r in
           SuperYear.investmentReturns r == 0.07 * B
           /\ SuperYear.taxOnEarnings r == 0.15 * 0.07 * B
           /\ SuperYear.endingBalance r == B * 1.0595).
Proof.
  split.
  - intros r Hin.
    destruct (projectSuperannuationBalance_In _ _ _ Hin)
      as (y & a & b & s & ->).
    cbn [superYear SuperYear.investmentReturns SuperYear.taxOnEarnings].
    unfold SUPER_EARNINGS_TAX_RATE.
    set (ir := (b + _ + _) * _).
    js_test (JS.gt ir 0); split; intros H; try reflexivity; lra.
  - intros Hage Hrate Hbal Hsal Hvc Hvn.
    unfold projectSuperannuationBalance.
    replace (retirementAge inputs - currentAge inputs)%Z with 1%Z by lia.
    change (Z.to_nat 1) with 1%nat. cbn [superLoop].
    destruct (Z.ltb_spec (currentAge inputs) (retirementAge inputs));
      [|lia].
    eexists. split; [reflexivity|].
    cbn [superYear SuperYear.investmentReturns SuperYear.taxOnEarnings
         SuperYear.startingBalance SuperYear.totalConcessional
         SuperYear.voluntaryNonConcessional SuperYear.endingBalance].
    unfold SUPER_EARNINGS_TAX_RATE, SUPER_GUARANTEE_RATE.
    set (cap := currentNonConcessionalCap (currentBalance inputs)).
    assert (Hcap : 0 <= cap).
    { subst cap.
      destruct (currentNonConcessionalCap_cases (currentBalance inputs))
        as [[_ ->] | [_ ->]]; lra. }
    set (m := JS.Math_min (voluntaryNonConcessionalContribution inputs) cap).
    assert (Hm : 0 <= m).
    { subst m.
      destruct (Math_min_cases
                  (voluntaryNonConcessionalContribution inputs) cap)
        as [[_ ->] | [_ ->]]; assumption. }
    set (B := currentBalance inputs
              + (annualSalary inputs * 0.115
                 + voluntaryConcessionalContribution inputs) + m).
    assert (HB : 0 <= B) by (subst B; lra).
    assert (Hir : B * (expectedReturnRate inputs / 100) == 0.07 * B).
    { rewrite Hrate. field. }
    js_test (JS.gt (B * (expectedReturnRate inputs / 100)) 0).
    + rewrite !Hir. repeat split; try reflexivity; field.
    + rewrite !Hir in *. repeat split; try reflexivity; lra.
Qed.

Lemma C7_earnings_tax_witness :
  exists r,
    projectSuperannuationBalance (clockAt 2024) highEarnerInputs = [r]
    /\ let B := SuperYear.startingBalance r
                + SuperYear.totalConcessional r
                + SuperYear.voluntaryNonConcessional r in
       SuperYear.investmentReturns r == 0.07 * B
       /\ SuperYear.taxOnEarnings r == 0.15 * 0.07 * B
       /\ SuperYear.endingBalance r == B * 1.0595.
Proof.
  apply (C7_earnings_tax (clockAt 2024) highEarnerInputs).
  - reflexivity.
  - reflexivity.
  - vm_compute. discriminate.
  - vm_compute. discriminate.
  - vm_compute. discriminate.
  - vm_compute. discriminate.
Defined.

(** ** Shape of the accumulation sequence *)

Lemma superLoop_ages (clk : Clock) (inputs : SuperannuationInputs)
    (fuel : nat) :
  forall reads age bal sal,
    fuel = Z.to_nat (retirementAge inputs - age) ->
    map SuperYear.age (superLoop clk inputs fuel reads age bal sal)
    = map (fun k => (age + Z.of_nat k)%Z) (seq 0 fuel).
Proof.
  induction fuel as [|fuel IH]; intros reads age bal sal Hfuel.
  - reflexivity.
  - cbn [superLoop].
    destruct (Z.ltb_spec age (retirementAge inputs)); [|lia].
    cbn [map seq superYear SuperYear.age]. f_equal.
    + lia.
    + rewrite IH by lia.
      rewrite <- seq_shift, map_map.
      apply map_ext. intros k. lia.
Qed.

(** C8.  [projectSuperannuationBalance] returns exactly
    max(0, retirementAge - currentAge) records, their ages are currentAge,
    currentAge + 1, ..., retirementAge - 1 in this order, and the sequence
    is empty whenever retirementAge <= currentAge. *)
Theorem C8_record_count_and_ages (clk : Clock)
    (inputs : SuperannuationInputs) :
  let n := Z.max 0 (retirementAge inputs - currentAge inputs) in
  Z.of_nat (length (projectSuperannuationBalance clk inputs)) = n
  /\ map SuperYear.age (projectSuperannuationBalance clk inputs)
     = map (fun k => (currentAge inputs + Z.of_nat k)%Z)
           (seq 0 (Z.to_nat n))
  /\ ((retirementAge inputs <= currentAge inputs)%Z ->
      projectSuperannuationBalance clk inputs = []).
Proof.
  intros n.
  assert (Hages :
    map SuperYear.age (projectSuperannuationBalance clk inputs)
    = map (fun k => (currentAge inputs + Z.of_nat k)%Z)
          (seq 0 (Z.to_nat n))).
  { unfold projectSuperannuationBalance.
    rewrite superLoop_ages by reflexivity.
    subst n. do 2 f_equal. lia. }
  split; [|split].
  - rewrite <- (length_map SuperYear.age), Hages, length_map, length_seq.
    subst n. lia.
  - exact Hages.
  - intros Hle. unfold projectSuperannuationBalance.
    replace (Z.to_nat (retirementAge inputs - currentAge inputs))
      with 0%nat by lia.
    reflexivity.
Qed.

Lemma C8_record_count_and_ages_witness :
  projectSuperannuationBalance (clockAt 2024)
    {| currentAge := 67; retirementAge := 30;
       currentBalance := 50000; annualSalary := 80000;
       voluntaryConcessionalContribution := 0;
       voluntaryNonConcessionalContribution := 0;
       expectedReturnRate := 7; salaryGrowthRate := 3;
       inflationRate := 2.5 |} = [].
Proof.
  apply C8_record_count_and_ages. simpl. lia.
Defined.

(** ** No floor in the accumulation phase *)

(** The ending balance of a year is the starting balance of the next. *)
Lemma superLoop_carry (clk : Clock) (inputs : SuperannuationInputs)
    (fuel : nat) :
  forall reads age bal sal i r r',
    nth_error (superLoop clk inputs fuel reads age bal sal) i = Some r ->
    nth_error (superLoop clk inputs fuel reads age bal sal) (S i) = Some r' ->
    SuperYear.startingBalance r' = SuperYear.endingBalance r.
Proof.
  induction fuel as [|fuel IH]; intros reads age bal sal i r r' Hi HSi.
  - destruct i; discriminate.
  - cbn [superLoop] in Hi, HSi.
    destruct (age <? retirementAge inputs)%Z; [|destruct i; discriminate].
    destruct i as [|i].
    + cbn [nth_error] in Hi, HSi. injection Hi as <-.
      destruct fuel as [|fuel]; [discriminate|].
      cbn [superLoop] in HSi.
      destruct (age + 1 <? retirementAge inputs)%Z; [|discriminate].
      cbn [nth_error] in HSi. injection HSi as <-. reflexivity.
    + cbn [nth_error] in Hi, HSi. eapply IH; eassumption.
Qed.

Lemma superLoop_first_start (clk : Clock) (inputs : SuperannuationInputs)
    (fuel reads : nat) (age : Z) (bal sal : Q)
    (r : SuperYear.SuperYearProjection) :
  nth_error (superLoop clk inputs fuel reads age bal sal) 0 = Some r ->
  SuperYear.startingBalance r = bal.
Proof.
  destruct fuel as [|fuel]; [discriminate|]. cbn [superLoop].
  destruct (age <? retirementAge inputs)%Z; [|discriminate].
  cbn [nth_error]. intros [= <-]. reflexivity.
Qed.

(** C10.  The accumulation phase has no non-negativity floor.  A year whose
    balance before returns is positive and whose expected return rate is
    below -100 ends strictly negative; a year's ending balance, negative or
    not, is the next year's starting balance unchanged; and there is an
    input with positive starting balance and return rate below -100 whose
    first year ends negative, is carried into the second, and whose final
    year, the balance handed to the drawdown phase, ends negative too. *)
Theorem C10_no_floor_in_accumulation (clk : Clock) :
  (forall inputs r,
     In r (projectSuperannuationBalance clk inputs) ->
     0 < SuperYear.startingBalance r + SuperYear.totalConcessional r
         + SuperYear.voluntaryNonConcessional r ->
     expectedReturnRate inputs < -100 ->
     SuperYear.endingBalance r < 0)
  /\ (forall inputs i r r',
        nth_error (projectSuperannuationBalance clk inputs) i = Some r ->
        nth_error (projectSuperannuationBalance clk inputs) (S i) = Some r' ->
        SuperYear.startingBalance r' = SuperYear.endingBalance r)
  /\ (exists inputs r1 r2 r3,
        0 < currentBalance inputs
        /\ expectedReturnRate inputs < -100
        /\ projectSuperannuationBalance clk inputs = [r1; r2; r3]
        /\ SuperYear.endingBalance r1 < 0
        /\ SuperYear.startingBalance r2 = SuperYear.endingBalance r1
        /\ SuperYear.startingBalance r2 < 0
        /\ SuperYear.endingBalance r3 < 0).
Proof.
  split; [|split].
  - intros inputs r Hin.
    destruct (projectSuperannuationBalance_In _ _ _ Hin)
      as (y & a & b & s & ->).
    cbn [superYear SuperYear.startingBalance SuperYear.totalConcessional
         SuperYear.voluntaryNonConcessional SuperYear.endingBalance].
    set (B := b + _ + _). intros HB Hrate.
    assert (Hir : B * (expectedReturnRate inputs / 100) < - B).
    { assert (E : B * (expectedReturnRate inputs / 100)
                  == - B + B * ((expectedReturnRate inputs + 100) / 100))
        by field.
      rewrite E.
      assert (B * ((expectedReturnRate inputs + 100) / 100) < 0);
        [|lra].
      setoid_replace (B * ((expectedReturnRate inputs + 100) / 100))
        with (- (B * ((- expectedReturnRate inputs - 100) / 100)))
        by field.
      assert (0 < B * ((- expectedReturnRate inputs - 100) / 100));
        [|lra].
      apply Qmult_lt_0_compat; [exact HB|].
      apply Qlt_shift_div_l; lra. }
    js_test (JS.gt (B * (expectedReturnRate inputs / 100)) 0); lra.
  - intros inputs i r r'. apply superLoop_carry.
  - exists crashInputs. do 3 eexists.
    split; [reflexivity|]. split; [reflexivity|].
    split; [reflexivity|].
    repeat split; vm_compute; reflexivity.
Qed.

Lemma C10_no_floor_in_accumulation_witness :
  SuperYear.endingBalance (superYear crashInputs 2024 30 1000 0) < 0.
Proof.
  apply (proj1 (C10_no_floor_in_accumulation (clockAt 2024)) crashInputs).
  - left. reflexivity.
  - vm_compute. reflexivity.
  - vm_compute. reflexivity.
Defined.

(** ** The drawdown loop *)

Section Drawdown.

Variable clk : Clock.
Variable retAge : Z.
Variable superInputs : SuperannuationInputs.
Variable postInputs : PostRetirementInputs.
Variable maxYears : Z.

Local Abbreviation loop := (postLoop clk retAge superInputs postInputs maxYears).
Local Abbreviation yearOf := (postYear retAge superInputs postInputs).
Local Abbreviation inflate := (livingExpensesAfter superInputs).

(** The balance that decides the [break] can be read back from the
    record. *)
Lemma postYear_ending (y i : Z) (b c : Q) :
  snd (yearOf y i b c) = computedEndingBalance (fst (yearOf y i b c)).
Proof. reflexivity. Qed.

(** The n-th record of the loop is built from the index [i + n], the
    living expenses inflated [n] times and a starting balance that is the
    loop's own for [n = 0] and positive afterwards. *)
Lemma postLoop_nth (fuel : nat) :
  forall i b c n r,
    nth_error (loop fuel i b c) n = Some r ->
    exists b',
      r = fst (yearOf (clk (Z.to_nat (i + Z.of_nat n)))
                 (i + Z.of_nat n)%Z b' (inflate n c))
      /\ (n = 0%nat -> b' = b)
      /\ ((0 < n)%nat -> 0 < b').
Proof.
  induction fuel as [|fuel IH]; intros i b c n r Hn.
  - destruct n; discriminate.
  - cbn [postLoop] in Hn.
    destruct (i <? maxYears)%Z; [|destruct n; discriminate].
    destruct (JS.le b 0 && (0 <? i)%Z); [destruct n; discriminate|].
    destruct (yearOf (clk (Z.to_nat i)) i b c) as [p e] eqn:Ey.
    assert (Hp : p = fst (yearOf (clk (Z.to_nat i)) i b c))
      by (rewrite Ey; reflexivity).
    js_test (JS.le e 0).
    + destruct n as [|n]; [|destruct n; discriminate].
      injection Hn as <-. exists b.
      rewrite Z.add_0_r. split; [exact Hp|]. split; [reflexivity|lia].
    + destruct n as [|n].
      * injection Hn as <-. exists b.
        rewrite Z.add_0_r. split; [exact Hp|]. split; [reflexivity|lia].
      * cbn [nth_error] in Hn.
        destruct (IH _ _ _ _ _ Hn) as (b' & Hr & H0 & Hpos).
        exists b'.
        replace (i + Z.of_nat (S n))%Z with (i + 1 + Z.of_nat n)%Z by lia.
        split; [exact Hr|]. split; [lia|]. intros _.
        destruct n as [|n]; [rewrite H0 by reflexivity; exact E|].
        apply Hpos. lia.
Qed.

(** A record that has a successor ended with a positive balance, and the
    successor starts from it. *)
Lemma postLoop_next (fuel : nat) :
  forall i b c n r r',
    nth_error (loop fuel i b c) n = Some r ->
    nth_error (loop fuel i b c) (S n) = Some r' ->
    0 < computedEndingBalance r
    /\ PostYear.startingBalance r' = computedEndingBalance r.
Proof.
  induction fuel as [|fuel IH]; intros i b c n r r' Hn HSn.
  - destruct n; discriminate.
  - cbn [postLoop] in Hn, HSn.
    destruct (i <? maxYears)%Z; [|destruct n; discriminate].
    destruct (JS.le b 0 && (0 <? i)%Z); [destruct n; discriminate|].
    destruct (yearOf (clk (Z.to_nat i)) i b c) as [p e] eqn:Ey.
    assert (He : e = computedEndingBalance p).
    { pose proof (postYear_ending (clk (Z.to_nat i)) i b c) as Hy.
      rewrite Ey in Hy. exact Hy. }
    js_test (JS.le e 0).
    + destruct n; discriminate.
    + destruct n as [|n].
      * injection Hn as <-. cbn [nth_error] in HSn.
        destruct (postLoop_nth fuel (i + 1)%Z e
                    (c * (1 + inflationRate superInputs / 100))
                    0%nat r' HSn) as (b' & -> & H0 & _).
        rewrite <- He. split; [exact E|].
        cbn [postYear fst PostYear.startingBalance].
        apply H0. reflexivity.
      * cbn [nth_error] in Hn, HSn. eapply IH; eassumption.
Qed.

(** A year that ends depleted is the last record. *)
Lemma postLoop_depleted_last (fuel : nat) (i : Z) (b c : Q) (n : nat)
    (r : PostYear.PostRetirementYearProjection) :
  nth_error (loop fuel i b c) n = Some r ->
  computedEndingBalance r <= 0 ->
  length (loop fuel i b c) = S n.
Proof.
  intros Hn Hdep.
  assert (Hlt : (n < length (loop fuel i b c))%nat)
    by (apply nth_error_Some; congruence).
  destruct (nth_error (loop fuel i b c) (S n)) as [r'|] eqn:HSn.
  - destruct (postLoop_next _ _ _ _ _ _ _ Hn HSn) as [Hpos _]. lra.
  - apply nth_error_None in HSn. lia.
Qed.

Lemma postLoop_length (fuel : nat) :
  forall i b c, (length (loop fuel i b c) <= fuel)%nat.
Proof.
  induction fuel as [|fuel IH]; intros i b c; cbn [postLoop].
  - apply Nat.le_refl.
  - destruct (i <? maxYears)%Z; [|cbn; lia].
    destruct (JS.le b 0 && (0 <? i)%Z); [cbn; lia|].
    destruct (yearOf (clk (Z.to_nat i)) i b c) as [p e].
    destruct (JS.le e 0); cbn [length]; [lia|].
    specialize (IH (i + 1)%Z e
                   (c * (1 + inflationRate superInputs / 100))).
    lia.
Qed.

(** From a state the loop can be in (a positive balance after the first
    year), a sequence shorter than the remaining horizon contains a
    depleted year. *)
Lemma postLoop_short (fuel : nat) :
  forall i b c,
    fuel = Z.to_nat (maxYears - i) ->
    ((0 < i)%Z -> 0 < b) ->
    (length (loop fuel i b c) < fuel)%nat ->
    exists n r,
      nth_error (loop fuel i b c) n = Some r
      /\ computedEndingBalance r <= 0.
Proof.
  induction fuel as [|fuel IH]; intros i b c Hfuel Hinv Hlen.
  - inversion Hlen.
  - cbn [postLoop] in *.
    destruct (Z.ltb_spec i maxYears); [|lia].
    destruct (JS.le b 0 && (0 <? i)%Z) eqn:Epre.
    { apply andb_true_iff in Epre. destruct Epre as [Hb Hi].
      apply le_true in Hb. apply Z.ltb_lt in Hi.
      specialize (Hinv Hi). lra. }
    destruct (yearOf (clk (Z.to_nat i)) i b c) as [p e] eqn:Ey.
    assert (He : e = computedEndingBalance p).
    { pose proof (postYear_ending (clk (Z.to_nat i)) i b c) as Hy.
      rewrite Ey in Hy. exact Hy. }
    js_test (JS.le e 0).
    + exists 0%nat, p. split; [reflexivity|]. rewrite <- He. exact E.
    + cbn [length] in Hlen.
      destruct (IH (i + 1)%Z e
                   (c * (1 + inflationRate superInputs / 100)))
        as (n & r & Hn & Hdep); [lia | intros _; exact E | lia |].
      exists (S n), r. split; assumption.
Qed.

(** More fuel than the horizon needs changes nothing: the loop stops on
    its own test [i < maxYears] or on a [break]. *)
Lemma postLoop_fuel (fuel : nat) :
  forall extra i b c,
    (Z.to_nat (maxYears - i) <= fuel)%nat ->
    loop (fuel + extra)%nat i b c = loop fuel i b c.
Proof.
  induction fuel as [|fuel IH]; intros extra i b c Hfuel.
  - destruct extra as [|extra]; [reflexivity|]. cbn [Nat.add postLoop].
    destruct (Z.ltb_spec i maxYears); [lia | reflexivity].
  - cbn [Nat.add postLoop].
    destruct (Z.ltb_spec i maxYears); [|reflexivity].
    destruct (JS.le b 0 && (0 <? i)%Z); [reflexivity|].
    destruct (yearOf (clk (Z.to_nat i)) i b c) as [p e].
    destruct (JS.le e 0); [reflexivity|].
    f_equal. apply IH. lia.
Qed.

End Drawdown.

(** The loop variable [currentAnnualLivingExpenses] in closed form. *)
Lemma livingExpensesAfter_power (superInputs : SuperannuationInputs)
    (n : nat) :
  forall c,
    livingExpensesAfter superInputs n c
    == c * (1 + inflationRate superInputs / 100) ^ Z.of_nat n.
Proof.
  induction n as [|n IH]; intros c.
  - cbn [livingExpensesAfter Z.of_nat Qpower]. ring.
  - cbn [livingExpensesAfter]. rewrite IH.
    replace (Z.of_nat (S n)) with (1 + Z.of_nat n)%Z by lia.
    rewrite Qpower_plus' by lia. rewrite Qpower_1_r. ring.
Qed.

(** ** Length and early termination of the drawdown sequence *)

(** C2, as the code has it.  The sequence has at most maxYears records
    (none when maxYears <= 0); a year whose computed ending balance is <= 0
    is always the final record; the sequence has fewer than maxYears
    records exactly when some year before the last year of the horizon
    ends with a computed balance <= 0 (a depletion in the last year of the
    horizon leaves exactly maxYears records).  With a starting balance of
    10000, living expenses of 60000, no other income, no return and a
    horizon of at least one year the sequence is one record with drawdown
    10000 and ending balance 0. *)
Theorem C2_length_and_depletion (clk : Clock) (startingRetirementBalance : Q)
    (retAge : Z) (superInputs : SuperannuationInputs)
    (postInputs : PostRetirementInputs) (maxYears : Z) :
  let l := projectPostRetirement clk startingRetirementBalance retAge
             superInputs postInputs maxYears in
  (Z.of_nat (length l) <= Z.max 0 maxYears)%Z
  /\ (forall n r, nth_error l n = Some r ->
                  computedEndingBalance r <= 0 -> length l = S n)
  /\ ((Z.of_nat (length l) < maxYears)%Z
      <-> exists n r, nth_error l n = Some r
                      /\ computedEndingBalance r <= 0
                      /\ (Z.of_nat n + 1 < maxYears)%Z)
  /\ ((0 < maxYears)%Z ->
      startingRetirementBalance == 10000 ->
      annualLivingExpenses postInputs == 60000 ->
      otherInvestmentIncome postInputs == 0 ->
      expectedReturnRate superInputs == 0 ->
      exists r, l = [r]
                /\ PostYear.drawdown r == 10000
                /\ PostYear.endingBalance r == 0).
Proof.
  intros l. subst l. unfold projectPostRetirement.
  set (ale := annualLivingExpenses postInputs).
  split; [|split; [|split]].
  - pose proof (postLoop_length clk retAge superInputs postInputs maxYears
                  (Z.to_nat maxYears) 0 startingRetirementBalance ale).
    lia.
  - intros n r. apply postLoop_depleted_last.
  - split.
    + intros Hlen.
      destruct (postLoop_short clk retAge superInputs postInputs maxYears
                  (Z.to_nat maxYears) 0 startingRetirementBalance ale)
        as (n & r & Hn & Hdep); [f_equal; lia | lia | lia |].
      exists n, r. split; [exact Hn|]. split; [exact Hdep|].
      rewrite (postLoop_depleted_last _ _ _ _ _ _ _ _ _ _ _ Hn Hdep)
        in Hlen.
      lia.
    + intros (n & r & Hn & Hdep & Hlt).
      rewrite (postLoop_depleted_last _ _ _ _ _ _ _ _ _ _ _ Hn Hdep).
      lia.
  - intros Hmax Hsb Hale Hoii Hrate.
    destruct (Z.to_nat maxYears) as [|fuel] eqn:Efuel; [lia|].
    cbn [postLoop].
    destruct (Z.ltb_spec 0 maxYears); [|lia].
    change (0 <? 0)%Z with false. rewrite andb_false_r.
    destruct (postYear retAge superInputs postInputs (clk (Z.to_nat 0)) 0
                startingRetirementBalance ale) as [p e] eqn:Ey.
    assert (Hp : p = fst (postYear retAge superInputs postInputs
                            (clk (Z.to_nat 0)) 0
                            startingRetirementBalance ale))
      by (rewrite Ey; reflexivity).
    assert (He : e = computedEndingBalance p).
    { pose proof (postYear_ending retAge superInputs postInputs
                    (clk (Z.to_nat 0)) 0 startingRetirementBalance ale)
        as Hy.
      rewrite Ey in Hy. exact Hy. }
    assert (Hfields : PostYear.drawdown p == 10000
                      /\ computedEndingBalance p == 0
                      /\ PostYear.endingBalance p == 0).
    { rewrite Hp. unfold computedEndingBalance.
      cbn [postYear fst PostYear.drawdown PostYear.endingBalance
           PostYear.startingBalance PostYear.investmentReturns].
      fold ale.
      assert (Hir : startingRetirementBalance
                    * (expectedReturnRate superInputs / 100) == 0)
        by (rewrite Hrate; field).
      set (ir := startingRetirementBalance
                 * (expectedReturnRate superInputs / 100)) in *.
      js_min (ale - otherInvestmentIncome postInputs)
             (startingRetirementBalance + ir); [lra|].
      js_test (JS.lt (startingRetirementBalance + ir) 0); [lra|].
      js_max 0 (startingRetirementBalance + ir
                - (startingRetirementBalance + ir)); lra. }
    destruct Hfields as (Hd & Hc & Hend).
    js_test (JS.le e 0); [|rewrite He in E; lra].
    exists p. split; [reflexivity|]. split; assumption.
Qed.

Lemma C2_length_and_depletion_witness :
  exists r,
    projectPostRetirement (clockAt 2024) 10000 67 flatInputs
      DEFAULT_POST_RETIREMENT_INPUTS DEFAULT_MAX_YEARS = [r]
    /\ PostYear.drawdown r == 10000
    /\ PostYear.endingBalance r == 0.
Proof.
  apply (C2_length_and_depletion (clockAt 2024) 10000 67 flatInputs
           DEFAULT_POST_RETIREMENT_INPUTS DEFAULT_MAX_YEARS).
  - reflexivity.
  - reflexivity.
  - reflexivity.
  - reflexivity.
  - reflexivity.
Defined.

(** With a horizon of one year the depletion year of the same example is
    the only record: a year ended at a balance <= 0 and yet the sequence
    did not stop short of maxYears records. *)
Lemma C2_depletion_in_last_horizon_year :
  let l := projectPostRetirement (clockAt 2024) 10000 67 flatInputs
             DEFAULT_POST_RETIREMENT_INPUTS 1 in
  ~ ((Z.of_nat (length l) < 1)%Z
     <-> exists r, In r l /\ computedEndingBalance r <= 0).
Proof.
  intros l [_ H].
  assert (Hlen : (Z.of_nat (length l) < 1)%Z).
  { apply H. eexists. split; [left; reflexivity|].
    vm_compute. discriminate. }
  vm_compute in Hlen. discriminate.
Qed.

(** ** Balances and shortfall of the drawdown records *)

(** C3.  Every record of [projectPostRetirement] has endingBalance =
    max(0, startingBalance + investmentReturns - drawdown); the ending
    balance and the amount drawn are never negative.  The starting balance
    of the first record is the balance the caller passed and that of every
    later record is positive. *)
Theorem C3_ending_balance_floor (clk : Clock) (startingRetirementBalance : Q)
    (retAge : Z) (superInputs : SuperannuationInputs)
    (postInputs : PostRetirementInputs) (maxYears : Z)
    (n : nat) (r : PostYear.PostRetirementYearProjection) :
  nth_error (projectPostRetirement clk startingRetirementBalance retAge
               superInputs postInputs maxYears) n = Some r ->
  PostYear.endingBalance r
  == Qmax 0 (PostYear.startingBalance r + PostYear.investmentReturns r
             - PostYear.drawdown r)
  /\ 0 <= PostYear.endingBalance r
  /\ 0 <= PostYear.drawdown r
  /\ (n = 0%nat -> PostYear.startingBalance r = startingRetirementBalance)
  /\ ((0 < n)%nat -> 0 < PostYear.startingBalance r).
Proof.
  intros Hn. unfold projectPostRetirement in Hn.
  destruct (postLoop_nth _ _ _ _ _ _ _ _ _ _ _ Hn) as (b' & -> & H0 & Hpos).
  cbn [postYear fst PostYear.drawdown PostYear.endingBalance
       PostYear.startingBalance PostYear.investmentReturns].
  set (c := livingExpensesAfter superInputs n _).
  set (bar := b' + b' * (expectedReturnRate superInputs / 100)).
  set (d := JS.Math_min (c - otherInvestmentIncome postInputs) bar).
  set (dd := if JS.lt d 0 then 0 else d).
  assert (Hdd : 0 <= dd) by (subst dd; js_test (JS.lt d 0); lra).
  split; [|split; [|split; [|split]]]; try assumption.
  - js_max 0 (bar - dd).
    + symmetry. apply Q.max_r. exact Hmax.
    + symmetry. apply Q.max_l. lra.
  - js_max 0 (bar - dd); lra.
Qed.

Lemma C3_ending_balance_floor_witness :
  let r := fst (postYear 67 flatInputs DEFAULT_POST_RETIREMENT_INPUTS
                  2024 0 10000 60000) in
  0 <= PostYear.endingBalance r.
Proof.
  apply (C3_ending_balance_floor (clockAt 2024) 10000 67 flatInputs
           DEFAULT_POST_RETIREMENT_INPUTS DEFAULT_MAX_YEARS 0).
  vm_compute. reflexivity.
Defined.

(** C6.  In the record of drawdown year n the shortfall is present exactly
    when that year's living expenses, the initial expenses inflated n
    times, exceed drawdown + otherIncome, and it is then exactly the
    difference; totalIncome is drawdown + otherIncome. *)
Theorem C6_shortfall (clk : Clock) (startingRetirementBalance : Q)
    (retAge : Z) (superInputs : SuperannuationInputs)
    (postInputs : PostRetirementInputs) (maxYears : Z)
    (n : nat) (r : PostYear.PostRetirementYearProjection) :
  nth_error (projectPostRetirement clk startingRetirementBalance retAge
               superInputs postInputs maxYears) n = Some r ->
  let livingExpenses :=
    annualLivingExpenses postInputs
    * (1 + inflationRate superInputs / 100) ^ Z.of_nat n in
  (PostYear.shortfall r <> None
   <-> PostYear.drawdown r + PostYear.otherIncome r < livingExpenses)
  /\ (forall x, PostYear.shortfall r = Some x ->
                x == livingExpenses
                     - (PostYear.drawdown r + PostYear.otherIncome r))
  /\ PostYear.otherIncome r = otherInvestmentIncome postInputs
  /\ PostYear.totalIncome r = PostYear.drawdown r + PostYear.otherIncome r.
Proof.
  intros Hn livingExpenses. unfold projectPostRetirement in Hn.
  destruct (postLoop_nth _ _ _ _ _ _ _ _ _ _ _ Hn) as (b' & -> & _ & _).
  pose proof (livingExpensesAfter_power superInputs n
                (annualLivingExpenses postInputs)) as Hc.
  fold livingExpenses in Hc.
  cbn [postYear fst PostYear.drawdown PostYear.shortfall
       PostYear.otherIncome PostYear.totalIncome].
  set (c := livingExpensesAfter superInputs n _) in *.
  set (bar := b' + b' * (expectedReturnRate superInputs / 100)).
  set (d := JS.Math_min (c - otherInvestmentIncome postInputs) bar).
  set (dd := if JS.lt d 0 then 0 else d).
  split; [|split; [|split]]; try reflexivity.
  - js_test (JS.gt c (dd + otherInvestmentIncome postInputs));
      split; intro H; try congruence; try discriminate; lra.
  - intros x Hx.
    js_test (JS.gt c (dd + otherInvestmentIncome postInputs));
      [|discriminate].
    injection Hx as <-. lra.
Qed.

Lemma C6_shortfall_witness :
  let r := fst (postYear 67 flatInputs DEFAULT_POST_RETIREMENT_INPUTS
                  2024 0 10000 60000) in
  PostYear.shortfall r <> None
  <-> PostYear.drawdown r + PostYear.otherIncome r
      < annualLivingExpenses DEFAULT_POST_RETIREMENT_INPUTS
        * (1 + inflationRate flatInputs / 100) ^ Z.of_nat 0.
Proof.
  apply (C6_shortfall (clockAt 2024) 10000 67 flatInputs
           DEFAULT_POST_RETIREMENT_INPUTS DEFAULT_MAX_YEARS 0).
  vm_compute. reflexivity.
Defined.

(** ** Dependence on the wall clock *)

Lemma superLoop_without_year (clk1 clk2 : Clock)
    (inputs : SuperannuationInputs) (fuel : nat) :
  forall reads1 reads2 age bal sal,
    map superWithoutYear (superLoop clk1 inputs fuel reads1 age bal sal)
    = map superWithoutYear (superLoop clk2 inputs fuel reads2 age bal sal).
Proof.
  induction fuel as [|fuel IH]; intros reads1 reads2 age bal sal.
  - reflexivity.
  - cbn [superLoop].
    destruct (age <? retirementAge inputs)%Z; [|reflexivity].
    cbn [map]. f_equal. apply IH.
Qed.

Lemma postLoop_without_year (clk1 clk2 : Clock) (retAge : Z)
    (superInputs : SuperannuationInputs) (postInputs : PostRetirementInputs)
    (maxYears : Z) (fuel : nat) :
  forall i b c,
    map postWithoutYear
      (postLoop clk1 retAge superInputs postInputs maxYears fuel i b c)
    = map postWithoutYear
        (postLoop clk2 retAge superInputs postInputs maxYears fuel i b c).
Proof.
  induction fuel as [|fuel IH]; intros i b c.
  - reflexivity.
  - cbn [postLoop].
    destruct (i <? maxYears)%Z; [|reflexivity].
    destruct (JS.le b 0 && (0 <? i)%Z); [reflexivity|].
    cbn [postYear].
    match goal with |- context [JS.le ?e 0] => destruct (JS.le e 0) end.
    + reflexivity.
    + cbn [map]. f_equal. apply IH.
Qed.

Lemma superLoop_clock_ext (clk1 clk2 : Clock)
    (inputs : SuperannuationInputs) (fuel : nat) :
  (forall n, clk1 n = clk2 n) ->
  forall reads age bal sal,
    superLoop clk1 inputs fuel reads age bal sal
    = superLoop clk2 inputs fuel reads age bal sal.
Proof.
  intros Hclk.
  induction fuel as [|fuel IH]; intros reads age bal sal.
  - reflexivity.
  - cbn [superLoop]. rewrite Hclk, IH. reflexivity.
Qed.

Lemma postLoop_clock_ext (clk1 clk2 : Clock) (retAge : Z)
    (superInputs : SuperannuationInputs) (postInputs : PostRetirementInputs)
    (maxYears : Z) (fuel : nat) :
  (forall n, clk1 n = clk2 n) ->
  forall i b c,
    postLoop clk1 retAge superInputs postInputs maxYears fuel i b c
    = postLoop clk2 retAge superInputs postInputs maxYears fuel i b c.
Proof.
  intros Hclk.
  induction fuel as [|fuel IH]; intros i b c.
  - reflexivity.
  - cbn [postLoop]. rewrite Hclk.
    destruct (i <? maxYears)%Z; [|reflexivity].
    destruct (JS.le b 0 && (0 <? i)%Z); [reflexivity|].
    destruct (postYear retAge superInputs postInputs
                (clk2 (Z.to_nat i)) i b c) as [p e].
    rewrite IH. reflexivity.
Qed.

(** The calendar year of the n-th accumulation record is the n-th clock
    reading plus n. *)
Lemma superLoop_year (clk : Clock) (inputs : SuperannuationInputs)
    (fuel : nat) :
  forall reads age bal sal n r,
    nth_error (superLoop clk inputs fuel reads age bal sal) n = Some r ->
    SuperYear.year r
    = (clk (reads + n)%nat + (age + Z.of_nat n - currentAge inputs))%Z.
Proof.
  induction fuel as [|fuel IH]; intros reads age bal sal n r Hn.
  - destruct n; discriminate.
  - cbn [superLoop] in Hn.
    destruct (age <? retirementAge inputs)%Z; [|destruct n; discriminate].
    destruct n as [|n].
    + injection Hn as <-. cbn [superYear SuperYear.year].
      rewrite Nat.add_0_r. f_equal. lia.
    + cbn [nth_error] in Hn. rewrite (IH _ _ _ _ _ _ Hn).
      replace (S reads + n)%nat with (reads + S n)%nat by lia.
      f_equal. lia.
Qed.

(** C9, as the code has it.  Both projectors read the wall clock: two runs
    on equal inputs agree on every field of every record except [year],
    which is the calendar year of the clock at the record's iteration plus
    the record's offset; runs on equal inputs that read equal years return
    equal sequences. *)
Theorem C9_deterministic_up_to_clock :
  (forall clk1 clk2 inputs,
     map superWithoutYear (projectSuperannuationBalance clk1 inputs)
     = map superWithoutYear (projectSuperannuationBalance clk2 inputs))
  /\ (forall clk1 clk2 b retAge superInputs postInputs maxYears,
        map postWithoutYear
          (projectPostRetirement clk1 b retAge superInputs postInputs
             maxYears)
        = map postWithoutYear
            (projectPostRetirement clk2 b retAge superInputs postInputs
               maxYears))
  /\ (forall clk inputs n r,
        nth_error (projectSuperannuationBalance clk inputs) n = Some r ->
        SuperYear.year r = (clk n + Z.of_nat n)%Z)
  /\ (forall clk b retAge superInputs postInputs maxYears n r,
        nth_error (projectPostRetirement clk b retAge superInputs
                     postInputs maxYears) n = Some r ->
        PostYear.year r
        = (clk n + (retAge + Z.of_nat n - currentAge superInputs))%Z)
  /\ (forall clk1 clk2,
        (forall n, clk1 n = clk2 n) ->
        (forall inputs,
           projectSuperannuationBalance clk1 inputs
           = projectSuperannuationBalance clk2 inputs)
        /\ (forall b retAge superInputs postInputs maxYears,
              projectPostRetirement clk1 b retAge superInputs postInputs
                maxYears
              = projectPostRetirement clk2 b retAge superInputs postInputs
                  maxYears)).
Proof.
  split; [|split; [|split; [|split]]].
  - intros. apply superLoop_without_year.
  - intros. apply postLoop_without_year.
  - intros clk inputs n r Hn.
    rewrite (superLoop_year _ _ _ _ _ _ _ _ _ Hn).
    cbn [Nat.add]. f_equal. lia.
  - intros clk b retAge superInputs postInputs maxYears n r Hn.
    unfold projectPostRetirement in Hn.
    destruct (postLoop_nth _ _ _ _ _ _ _ _ _ _ _ Hn) as (b' & -> & _ & _).
    cbn [postYear fst PostYear.year].
    rewrite Z.add_0_l, Nat2Z.id. reflexivity.
  - intros clk1 clk2 Hclk. split.
    + intros. now apply superLoop_clock_ext.
    + intros. now apply postLoop_clock_ext.
Qed.

Lemma C9_deterministic_up_to_clock_witness :
  SuperYear.year (superYear oneYearInputs 2024 30 0 80000)
  = (clockAt 2024 0%nat + Z.of_nat 0)%Z.
Proof.
  apply (proj1 (proj2 (proj2 C9_deterministic_up_to_clock))
           (clockAt 2024) oneYearInputs 0%nat).
  reflexivity.
Defined.

(** Two runs on the same input in different calendar years differ. *)
Lemma C9_same_input_different_year :
  projectSuperannuationBalance (clockAt 2024) oneYearInputs
  <> projectSuperannuationBalance (clockAt 2025) oneYearInputs.
Proof.
  intros H. apply (f_equal (map SuperYear.year)) in H.
  vm_compute in H. discriminate.
Qed.

(** * Further properties of the projectors *)

(** ** Salary growth and contributions *)

Lemma salaryAfter_power (inputs : SuperannuationInputs) (n : nat) :
  forall s,
    salaryAfter inputs n s
    == s * (1 + salaryGrowthRate inputs / 100) ^ Z.of_nat n.
Proof.
  induction n as [|n IH]; intros s.
  - cbn [salaryAfter Z.of_nat Qpower]. ring.
  - cbn [salaryAfter]. rewrite IH.
    replace (Z.of_nat (S n)) with (1 + Z.of_nat n)%Z by lia.
    rewrite Qpower_plus' by lia. rewrite Qpower_1_r. ring.
Qed.

(** The n-th accumulation record is built from the age [age + n], the
    salary grown [n] times and the balance carried to that year. *)
Lemma superLoop_nth (clk : Clock) (inputs : SuperannuationInputs)
    (fuel : nat) :
  forall reads age bal sal n r,
    nth_error (superLoop clk inputs fuel reads age bal sal) n = Some r ->
    exists b,
      r = superYear inputs (clk (reads + n)%nat) (age + Z.of_nat n)%Z b
            (salaryAfter inputs n sal)
      /\ (n = 0%nat -> b = bal).
Proof.
  induction fuel as [|fuel IH]; intros reads age bal sal n r Hn.
  - destruct n; discriminate.
  - cbn [superLoop] in Hn.
    destruct (age <? retirementAge inputs)%Z; [|destruct n; discriminate].
    destruct n as [|n].
    + injection Hn as <-. exists bal.
      rewrite Nat.add_0_r, Z.add_0_r. split; reflexivity.
    + cbn [nth_error] in Hn.
      destruct (IH _ _ _ _ _ _ Hn) as (b & -> & _).
      exists b. split; [|discriminate].
      replace (S reads + n)%nat with (reads + S n)%nat by lia.
      replace (age + 1 + Z.of_nat n)%Z with (age + Z.of_nat (S n))%Z by lia.
      reflexivity.
Qed.

(** X1.  The guarantee contribution of accumulation year n is 11.5% of the
    salary compounded n times at the salary growth rate (the growth is
    applied after the year's contribution); the voluntary concessional
    amount is the input's in every year. *)
Theorem sg_contributions_compound (clk : Clock)
    (inputs : SuperannuationInputs) (n : nat)
    (r : SuperYear.SuperYearProjection) :
  nth_error (projectSuperannuationBalance clk inputs) n = Some r ->
  SuperYear.sgContributions r
  == annualSalary inputs
     * (1 + salaryGrowthRate inputs / 100) ^ Z.of_nat n * 0.115
  /\ SuperYear.voluntaryConcessional r
     = voluntaryConcessionalContribution inputs
  /\ SuperYear.totalConcessional r
     == annualSalary inputs
        * (1 + salaryGrowthRate inputs / 100) ^ Z.of_nat n * 0.115
        + voluntaryConcessionalContribution inputs.
Proof.
  intros Hn. unfold projectSuperannuationBalance in Hn.
  destruct (superLoop_nth _ _ _ _ _ _ _ _ _ Hn) as (b & -> & _).
  cbn [superYear SuperYear.sgContributions SuperYear.voluntaryConcessional
       SuperYear.totalConcessional].
  unfold SUPER_GUARANTEE_RATE.
  rewrite salaryAfter_power.
  repeat split; reflexivity.
Qed.

Lemma sg_contributions_compound_witness :
  let r := superYear oneYearInputs 2024 30 0 80000 in
  SuperYear.sgContributions r
  == annualSalary oneYearInputs
     * (1 + salaryGrowthRate oneYearInputs / 100) ^ Z.of_nat 0 * 0.115.
Proof.
  apply (sg_contributions_compound (clockAt 2024) oneYearInputs 0).
  reflexivity.
Defined.

(** ** Growth of the balance *)

(** X2.  What a year adds to the balance before returns is kept, or lost,
    at the after-tax rate: with positive returns the ending balance is the
    balance before returns times 1 + 0.85 x rate/100, otherwise times
    1 + rate/100 (losses are not offset). *)
Theorem ending_balance_after_tax_growth (clk : Clock)
    (inputs : SuperannuationInputs) (r : SuperYear.SuperYearProjection) :
  In r (projectSuperannuationBalance clk inputs) ->
  let B := SuperYear.startingBalance r + SuperYear.totalConcessional r
           + SuperYear.voluntaryNonConcessional r in
  (0 < SuperYear.investmentReturns r ->
   SuperYear.endingBalance r
   == B * (1 + 0.85 * (expectedReturnRate inputs / 100)))
  /\ (SuperYear.investmentReturns r <= 0 ->
      SuperYear.endingBalance r
      == B * (1 + expectedReturnRate inputs / 100)).
Proof.
  intros Hin.
  destruct (projectSuperannuationBalance_In _ _ _ Hin)
    as (y & a & b & s & ->).
  cbn [superYear SuperYear.startingBalance SuperYear.totalConcessional
       SuperYear.voluntaryNonConcessional SuperYear.investmentReturns
       SuperYear.endingBalance].
  unfold SUPER_EARNINGS_TAX_RATE.
  set (B := b + _ + _).
  js_test (JS.gt (B * (expectedReturnRate inputs / 100)) 0);
    split; intros H; try lra; ring.
Qed.

Lemma ending_balance_after_tax_growth_witness :
  let r := superYear highEarnerInputs 2024 50 2000000 300000 in
  SuperYear.endingBalance r
  == (SuperYear.startingBalance r + SuperYear.totalConcessional r
      + SuperYear.voluntaryNonConcessional r)
     * (1 + 0.85 * (expectedReturnRate highEarnerInputs / 100)).
Proof.
  apply (ending_balance_after_tax_growth (clockAt 2024) highEarnerInputs).
  - left. reflexivity.
  - vm_compute. reflexivity.
Defined.

Section NonNegativeInputs.

Variable clk : Clock.
Variable inputs : SuperannuationInputs.
Hypothesis Hvc : 0 <= voluntaryConcessionalContribution inputs.
Hypothesis Hvn : 0 <= voluntaryNonConcessionalContribution inputs.
Hypothesis Hrate : 0 <= expectedReturnRate inputs.
Hypothesis Hgrowth : -100 <= salaryGrowthRate inputs.

Lemma superYear_grows (y a : Z) (b s : Q) :
  0 <= b -> 0 <= s ->
  let r := superYear inputs y a b s in
  b <= SuperYear.endingBalance r
  /\ 0 <= SuperYear.taxOnEarnings r
  /\ SuperYear.taxOnEarnings r <= SuperYear.investmentReturns r
  /\ 0 <= SuperYear.voluntaryNonConcessional r.
Proof.
  intros Hb Hs.
  cbn [superYear SuperYear.endingBalance SuperYear.taxOnEarnings
       SuperYear.investmentReturns SuperYear.voluntaryNonConcessional].
  unfold SUPER_EARNINGS_TAX_RATE, SUPER_GUARANTEE_RATE.
  set (cap := currentNonConcessionalCap b).
  assert (Hcap : 0 <= cap).
  { subst cap.
    destruct (currentNonConcessionalCap_cases b) as [[_ ->] | [_ ->]]; lra. }
  set (m := JS.Math_min (voluntaryNonConcessionalContribution inputs) cap).
  assert (Hm : 0 <= m).
  { subst m.
    destruct (Math_min_cases (voluntaryNonConcessionalContribution inputs)
                cap) as [[_ ->] | [_ ->]]; assumption. }
  set (B := b + (s * 0.115 + voluntaryConcessionalContribution inputs) + m).
  assert (HB : b <= B) by (subst B; lra).
  assert (Hir : 0 <= B * (expectedReturnRate inputs / 100)).
  { apply Qmult_le_0_compat; [lra|].
    apply Qle_shift_div_l; lra. }
  js_test (JS.gt (B * (expectedReturnRate inputs / 100)) 0);
    repeat split; try assumption; lra.
Qed.

Lemma superLoop_grows (fuel : nat) :
  forall reads age bal sal r,
    0 <= bal -> 0 <= sal ->
    In r (superLoop clk inputs fuel reads age bal sal) ->
    0 <= SuperYear.startingBalance r
    /\ SuperYear.startingBalance r <= SuperYear.endingBalance r
    /\ 0 <= SuperYear.taxOnEarnings r
    /\ SuperYear.taxOnEarnings r <= SuperYear.investmentReturns r
    /\ 0 <= SuperYear.voluntaryNonConcessional r.
Proof.
  induction fuel as [|fuel IH]; intros reads age bal sal r Hb Hs Hin;
    cbn [superLoop] in Hin.
  - contradiction.
  - destruct (age <? retirementAge inputs)%Z; [|contradiction].
    pose proof (superYear_grows (clk reads) age bal sal Hb Hs) as Hy.
    cbv zeta in Hy.
    destruct Hin as [<- | Hin].
    + split; [exact Hb|]. exact Hy.
    + apply IH in Hin; [exact Hin | lra |].
      apply Qmult_le_0_compat; [exact Hs|].
      assert (0 <= (salaryGrowthRate inputs + 100) / 100)
        by (apply Qle_shift_div_l; lra).
      setoid_replace (1 + salaryGrowthRate inputs / 100)
        with ((salaryGrowthRate inputs + 100) / 100) by field.
      assumption.
Qed.

(** Along the sequence the starting balance never decreases. *)
Lemma superLoop_monotone (fuel : nat) (reads : nat) (age : Z) (bal sal : Q) :
  0 <= bal -> 0 <= sal ->
  forall m n r r',
    (n <= m)%nat ->
    nth_error (superLoop clk inputs fuel reads age bal sal) n = Some r ->
    nth_error (superLoop clk inputs fuel reads age bal sal) m = Some r' ->
    SuperYear.startingBalance r <= SuperYear.startingBalance r'.
Proof.
  intros Hb Hs.
  induction m as [|m IH]; intros n r r' Hle Hn Hm.
  - assert (n = 0%nat) by lia. subst n.
    rewrite Hn in Hm. injection Hm as <-. lra.
  - destruct (Nat.eq_dec n (S m)) as [-> | Hne].
    + rewrite Hn in Hm. injection Hm as <-. lra.
    + destruct (nth_error (superLoop clk inputs fuel reads age bal sal) m)
        as [r''|] eqn:Hm'.
      * assert (H1 : SuperYear.startingBalance r
                     <= SuperYear.startingBalance r'')
          by (apply (IH n); [lia | assumption | reflexivity]).
        rewrite (superLoop_carry _ _ _ _ _ _ _ _ _ _ Hm' Hm).
        destruct (superLoop_grows fuel reads age bal sal r'' Hb Hs
                    (nth_error_In _ _ Hm')) as (_ & H2 & _).
        lra.
      * apply nth_error_None in Hm'.
        assert (nth_error (superLoop clk inputs fuel reads age bal sal)
                  (S m) <> None) by congruence.
        apply nth_error_Some in H. lia.
Qed.

End NonNegativeInputs.

(** X3.  With non-negative balance, salary and voluntary contributions, a
    salary growth rate of at least -100 and a non-negative return rate,
    the balance never decreases: every record has 0 <= startingBalance
    <= endingBalance, and the earnings tax lies between 0 and the year's
    returns. *)
Theorem balance_never_decreases (clk : Clock)
    (inputs : SuperannuationInputs) (r : SuperYear.SuperYearProjection) :
  0 <= currentBalance inputs -> 0 <= annualSalary inputs ->
  0 <= voluntaryConcessionalContribution inputs ->
  0 <= voluntaryNonConcessionalContribution inputs ->
  0 <= expectedReturnRate inputs ->
  -100 <= salaryGrowthRate inputs ->
  In r (projectSuperannuationBalance clk inputs) ->
  0 <= SuperYear.startingBalance r
  /\ SuperYear.startingBalance r <= SuperYear.endingBalance r
  /\ 0 <= SuperYear.taxOnEarnings r
  /\ SuperYear.taxOnEarnings r <= SuperYear.investmentReturns r.
Proof.
  intros Hb Hs Hvc Hvn Hrate Hgrowth Hin.
  destruct (superLoop_grows clk inputs Hvc Hvn Hrate Hgrowth _ _ _ _ _ _
              Hb Hs Hin) as (H1 & H2 & H3 & H4 & _).
  repeat split; assumption.
Qed.

Lemma balance_never_decreases_witness :
  let r := superYear highEarnerInputs 2024 50 2000000 300000 in
  0 <= SuperYear.startingBalance r
  /\ SuperYear.startingBalance r <= SuperYear.endingBalance r
  /\ 0 <= SuperYear.taxOnEarnings r
  /\ SuperYear.taxOnEarnings r <= SuperYear.investmentReturns r.
Proof.
  apply (balance_never_decreases (clockAt 2024) highEarnerInputs).
  - vm_compute. discriminate.
  - vm_compute. discriminate.
  - vm_compute. discriminate.
  - vm_compute. discriminate.
  - vm_compute. discriminate.
  - vm_compute. discriminate.
  - left. reflexivity.
Defined.

(** X4.  Under the same conditions the total-super-balance gate, once
    closed, stays closed: from the first year that starts at or above
    1900000, every later year starts at or above it too, contributes no
    non-concessional amount, and reports a positive voluntary amount in
    full as excess. *)
Theorem tsb_gate_stays_closed (clk : Clock)
    (inputs : SuperannuationInputs) (n m : nat)
    (r r' : SuperYear.SuperYearProjection) :
  0 <= currentBalance inputs -> 0 <= annualSalary inputs ->
  0 <= voluntaryConcessionalContribution inputs ->
  0 <= voluntaryNonConcessionalContribution inputs ->
  0 <= expectedReturnRate inputs ->
  -100 <= salaryGrowthRate inputs ->
  (n <= m)%nat ->
  nth_error (projectSuperannuationBalance clk inputs) n = Some r ->
  nth_error (projectSuperannuationBalance clk inputs) m = Some r' ->
  1900000 <= SuperYear.startingBalance r ->
  1900000 <= SuperYear.startingBalance r'
  /\ SuperYear.voluntaryNonConcessional r' == 0
  /\ (0 < voluntaryNonConcessionalContribution inputs ->
      exists x, SuperYear.nonConcessionalCapExceededBy r' = Some x
                /\ x == voluntaryNonConcessionalContribution inputs).
Proof.
  intros Hb Hs Hvc Hvn Hrate Hgrowth Hle Hn Hm Htsb.
  assert (Hstart : 1900000 <= SuperYear.startingBalance r').
  { pose proof (superLoop_monotone clk inputs Hvc Hvn Hrate Hgrowth
                  _ _ _ _ _ Hb Hs m n r r' Hle Hn Hm).
    lra. }
  split; [exact Hstart|].
  unfold projectSuperannuationBalance in Hm.
  destruct (superLoop_nth _ _ _ _ _ _ _ _ _ Hm) as (b & -> & _).
  cbn [superYear SuperYear.startingBalance SuperYear.voluntaryNonConcessional
       SuperYear.nonConcessionalCapExceededBy] in *.
  destruct (currentNonConcessionalCap_cases b) as [[_ E] | [Hlt _]];
    [|lra].
  rewrite E. split.
  - js_min (voluntaryNonConcessionalContribution inputs) 0; lra.
  - intros Hpos.
    js_test (JS.gt (voluntaryNonConcessionalContribution inputs) 0);
      [|lra].
    eexists. split; [reflexivity|]. ring.
Qed.

(** ** Optional amounts *)

(** X5.  A cap excess that is reported is strictly positive, so the
    truthiness tests of the projection table ([p.concessionalCapExceededBy
    ? ... : 'No']) show an excess exactly when the field is present. *)
Theorem cap_excess_positive (clk : Clock) (inputs : SuperannuationInputs)
    (r : SuperYear.SuperYearProjection) :
  In r (projectSuperannuationBalance clk inputs) ->
  (forall x, SuperYear.concessionalCapExceededBy r = Some x -> 0 < x)
  /\ (forall x, SuperYear.nonConcessionalCapExceededBy r = Some x -> 0 < x).
Proof.
  intros Hin.
  destruct (projectSuperannuationBalance_In _ _ _ Hin)
    as (y & a & b & s & ->).
  cbn [superYear SuperYear.concessionalCapExceededBy
       SuperYear.nonConcessionalCapExceededBy].
  split; intros x Hx.
  - js_test (JS.gt (s * SUPER_GUARANTEE_RATE
                    + voluntaryConcessionalContribution inputs)
               CONCESSIONAL_CONTRIBUTION_CAP); [|discriminate].
    injection Hx as <-. lra.
  - js_test (JS.gt (voluntaryNonConcessionalContribution inputs)
               (currentNonConcessionalCap b)); [|discriminate].
    injection Hx as <-. lra.
Qed.

Lemma cap_excess_positive_witness :
  0 < 300000 * SUPER_GUARANTEE_RATE
      + voluntaryConcessionalContribution highEarnerInputs
      - CONCESSIONAL_CONTRIBUTION_CAP.
Proof.
  apply (proj1 (cap_excess_positive (clockAt 2024) highEarnerInputs
                  (superYear highEarnerInputs 2024 50 2000000 300000)
                  (or_introl eq_refl))).
  vm_compute. reflexivity.
Defined.

(** ** The drawdown sequence *)

(** The first iteration always pushes a record. *)
Lemma projectPostRetirement_first (clk : Clock)
    (startingRetirementBalance : Q) (retAge : Z)
    (superInputs : SuperannuationInputs)
    (postInputs : PostRetirementInputs) (maxYears : Z) :
  (0 < maxYears)%Z ->
  exists r rest,
    projectPostRetirement clk startingRetirementBalance retAge
      superInputs postInputs maxYears = r :: rest
    /\ PostYear.startingBalance r = startingRetirementBalance
    /\ PostYear.age r = retAge
    /\ PostYear.year r
       = (clk 0%nat + (retAge - currentAge superInputs))%Z.
Proof.
  intros Hmax. unfold projectPostRetirement.
  destruct (Z.to_nat maxYears) as [|fuel] eqn:Efuel; [lia|].
  cbn [postLoop].
  destruct (Z.ltb_spec 0 maxYears); [|lia].
  change (0 <? 0)%Z with false. rewrite andb_false_r.
  cbn [postYear].
  match goal with |- context [JS.le ?e 0] => destruct (JS.le e 0) end;
    eexists; eexists; (split; [reflexivity|]);
    cbn [PostYear.startingBalance PostYear.age PostYear.year];
    change (Z.to_nat 0) with 0%nat;
    repeat split; try reflexivity; try lia; f_equal; lia.
Qed.

(** X6.  With a horizon of at least one year the drawdown sequence is never
    empty, whatever the starting balance (the depletion test before the
    body is skipped in the first iteration); its first record starts from
    the balance passed in, and the n-th record is for age
    retirementAge + n. *)
Theorem drawdown_starts_at_retirement (clk : Clock)
    (startingRetirementBalance : Q) (retAge : Z)
    (superInputs : SuperannuationInputs)
    (postInputs : PostRetirementInputs) (maxYears : Z) :
  let l := projectPostRetirement clk startingRetirementBalance retAge
             superInputs postInputs maxYears in
  ((0 < maxYears)%Z ->
   exists r rest,
     l = r :: rest
     /\ PostYear.startingBalance r = startingRetirementBalance
     /\ PostYear.age r = retAge)
  /\ (forall n r, nth_error l n = Some r ->
                  PostYear.age r = (retAge + Z.of_nat n)%Z).
Proof.
  intros l. subst l. split.
  - intros Hmax.
    destruct (projectPostRetirement_first clk startingRetirementBalance
                retAge superInputs postInputs maxYears Hmax)
      as (r & rest & E & Hs & Ha & _).
    exists r, rest. repeat split; assumption.
  - intros n r Hn. unfold projectPostRetirement in Hn.
    destruct (postLoop_nth _ _ _ _ _ _ _ _ _ _ _ Hn) as (b' & -> & _ & _).
    cbn [postYear fst PostYear.age]. lia.
Qed.

Lemma drawdown_starts_at_retirement_witness :
  exists r rest,
    projectPostRetirement (clockAt 2024) (-100) 67 flatInputs
      DEFAULT_POST_RETIREMENT_INPUTS DEFAULT_MAX_YEARS = r :: rest
    /\ PostYear.startingBalance r = -100
    /\ PostYear.age r = 67%Z.
Proof.
  apply (drawdown_starts_at_retirement (clockAt 2024) (-100) 67 flatInputs
           DEFAULT_POST_RETIREMENT_INPUTS DEFAULT_MAX_YEARS).
  reflexivity.
Defined.





Section CoveredExpenses.

Variable clk : Clock.
Variable retAge : Z.
Variable superInputs : SuperannuationInputs.
Variable postInputs : PostRetirementInputs.
Variable maxYears : Z.
Hypothesis Hrate : 0 <= expectedReturnRate superInputs.
Hypothesis Hinfl_lo : -100 <= inflationRate superInputs.
Hypothesis Hinfl_hi : inflationRate superInputs <= 0.

(** A year whose expenses are covered by the other income draws nothing
    and leaves the fund at least where it started. *)
Lemma postYear_covered (y i : Z) (b c : Q) :
  0 < b -> c <= otherInvestmentIncome postInputs ->
  let pe := postYear retAge superInputs postInputs y i b c in
  PostYear.drawdown (fst pe) == 0
  /\ PostYear.shortfall (fst pe) = None
  /\ b <= snd pe
  /\ PostYear.endingBalance (fst pe) == snd pe.
Proof.
  intros Hb Hc.
  cbn [postYear fst snd PostYear.drawdown PostYear.shortfall
       PostYear.endingBalance].
  set (oii := otherInvestmentIncome postInputs) in *.
  assert (Hir : 0 <= b * (expectedReturnRate superInputs / 100)).
  { apply Qmult_le_0_compat; [lra|]. apply Qle_shift_div_l; lra. }
  set (bar := b + b * (expectedReturnRate superInputs / 100)).
  assert (Hbar : b <= bar) by (subst bar; lra).
  js_min (c - oii) bar; [|lra].
  js_test (JS.lt (c - oii) 0).
  - js_test (JS.gt c (0 + oii)); [lra|].
    js_max 0 (bar - 0); repeat split; try reflexivity; lra.
  - js_test (JS.gt c (c - oii + oii)); [lra|].
    js_max 0 (bar - (c - oii)); repeat split; try reflexivity; lra.
Qed.

Lemma postLoop_covered (fuel : nat) :
  forall i b c,
    fuel = Z.to_nat (maxYears - i) ->
    0 < b -> 0 <= c -> c <= otherInvestmentIncome postInputs ->
    length (postLoop clk retAge superInputs postInputs maxYears fuel i b c)
    = fuel
    /\ forall r,
         In r (postLoop clk retAge superInputs postInputs maxYears
                 fuel i b c) ->
         PostYear.drawdown r == 0
         /\ PostYear.shortfall r = None
         /\ PostYear.startingBalance r <= PostYear.endingBalance r
         /\ 0 < PostYear.endingBalance r.
Proof.
  induction fuel as [|fuel IH]; intros i b c Hfuel Hb Hc0 Hc.
  - split; [reflexivity | intros r []].
  - cbn [postLoop].
    destruct (Z.ltb_spec i maxYears); [|lia].
    js_test (JS.le b 0); [lra|]. cbn [andb].
    pose proof (postYear_covered (clk (Z.to_nat i)) i b c Hb Hc) as Hy.
    cbv zeta in Hy.
    destruct (postYear retAge superInputs postInputs (clk (Z.to_nat i))
                i b c) as [p e] eqn:Ey.
    cbn [fst snd] in Hy. destruct Hy as (Hd & Hs & Hbe & Hend).
    assert (Hstart : PostYear.startingBalance p = b).
    { replace p with (fst (postYear retAge superInputs postInputs
                             (clk (Z.to_nat i)) i b c))
        by (rewrite Ey; reflexivity).
      reflexivity. }
    js_test (JS.le e 0); [lra|].
    assert (Hf : 0 <= 1 + inflationRate superInputs / 100).
    { setoid_replace (1 + inflationRate superInputs / 100)
        with ((inflationRate superInputs + 100) / 100) by field.
      apply Qle_shift_div_l; lra. }
    assert (Hc0' : 0 <= c * (1 + inflationRate superInputs / 100))
      by (apply Qmult_le_0_compat; assumption).
    assert (Hc' : c * (1 + inflationRate superInputs / 100)
                  <= otherInvestmentIncome postInputs).
    { assert (0 <= c * (- inflationRate superInputs / 100)).
      { apply Qmult_le_0_compat; [assumption|].
        apply Qle_shift_div_l; lra. }
      setoid_replace (c * (1 + inflationRate superInputs / 100))
        with (c - c * (- inflationRate superInputs / 100)) by field.
      lra. }
    destruct (IH (i + 1)%Z e (c * (1 + inflationRate superInputs / 100)))
      as [Hlen Hrec]; [lia | lra | assumption | assumption |].
    split; [cbn [length]; lia|].
    intros r [<- | Hin].
    + rewrite Hstart. repeat split; try assumption; lra.
    + apply Hrec. exact Hin.
Qed.

End CoveredExpenses.

(** X9.  A fund that starts positive, earns a non-negative return and
    faces living expenses that other income covers from the first year on
    (non-negative expenses not above the other income, and an inflation
    rate between -100 and 0) is never drawn on: the sequence runs the full
    horizon, and every record has drawdown 0, no shortfall and an ending
    balance that is positive and at least the starting balance. *)
Theorem covered_expenses_full_horizon (clk : Clock)
    (startingRetirementBalance : Q) (retAge : Z)
    (superInputs : SuperannuationInputs)
    (postInputs : PostRetirementInputs) (maxYears : Z) :
  0 < startingRetirementBalance ->
  0 <= expectedReturnRate superInputs ->
  -100 <= inflationRate superInputs ->
  inflationRate superInputs <= 0 ->
  0 <= annualLivingExpenses postInputs ->
  annualLivingExpenses postInputs <= otherInvestmentIncome postInputs ->
  let l := projectPostRetirement clk startingRetirementBalance retAge
             superInputs postInputs maxYears in
  Z.of_nat (length l) = Z.max 0 maxYears
  /\ forall r, In r l ->
       PostYear.drawdown r == 0
       /\ PostYear.shortfall r = None
       /\ PostYear.startingBalance r <= PostYear.endingBalance r
       /\ 0 < PostYear.endingBalance r.
Proof.
  intros Hb Hrate Hlo Hhi Hale0 Hale l. subst l.
  unfold projectPostRetirement.
  destruct (postLoop_covered clk retAge superInputs postInputs maxYears
              Hrate Hlo Hhi (Z.to_nat maxYears) 0 startingRetirementBalance
              (annualLivingExpenses postInputs))
    as [Hlen Hrec]; try assumption; [f_equal; lia|].
  split; [rewrite Hlen; lia | exact Hrec].
Qed.

Lemma covered_expenses_full_horizon_witness :
  Z.of_nat (length (projectPostRetirement (clockAt 2024) 500000 67
                      flatInputs coveredPostInputs 2))
  = Z.max 0 2.
Proof.
  apply (covered_expenses_full_horizon (clockAt 2024) 500000 67 flatInputs
           coveredPostInputs 2).
  - vm_compute. reflexivity.
  - vm_compute. discriminate.
  - vm_compute. discriminate.
  - vm_compute. discriminate.
  - vm_compute. discriminate.
  - vm_compute. discriminate.
Defined.

Lemma tsb_gate_stays_closed_witness :
  let r := superYear twoYearInputs 2024 50 2000000 100000 in
  let r' := superYear twoYearInputs 2024 51 (SuperYear.endingBalance r)
              (100000 * (1 + 0 / 100)) in
  1900000 <= SuperYear.startingBalance r'
  /\ SuperYear.voluntaryNonConcessional r' == 0
  /\ (0 < voluntaryNonConcessionalContribution twoYearInputs ->
      exists x, SuperYear.nonConcessionalCapExceededBy r' = Some x
                /\ x == voluntaryNonConcessionalContribution twoYearInputs).
Proof.
  apply (tsb_gate_stays_closed (clockAt 2024) twoYearInputs 0 1
           (superYear twoYearInputs 2024 50 2000000 100000)).
  - vm_compute. discriminate.
  - vm_compute. discriminate.
  - vm_compute. discriminate.
  - vm_compute. discriminate.
  - vm_compute. discriminate.
  - vm_compute. discriminate.
  - lia.
  - vm_compute. reflexivity.
  - vm_compute. reflexivity.
  - vm_compute. discriminate.
Defined.

(** * runForecast and the figures derived from its result *)

Lemma lastOf_nonempty {A : Type} (l : list A) :
  (0 < length l)%nat -> exists x, lastOf l = Some x.
Proof.
  intros Hlen. unfold lastOf.
  destruct (nth_error l (length l - 1)) as [x|] eqn:E.
  - now exists x.
  - apply nth_error_None in E. lia.
Qed.

(** A list whose n-th element is sent to [g n] by [f], for every n. *)
Lemma map_by_index {A : Type} (f : A -> Z) (l : list A) :
  forall g : nat -> Z,
    (forall n r, nth_error l n = Some r -> f r = g n) ->
    map f l = map g (seq 0 (length l)).
Proof.
  induction l as [|a l IH]; intros g Hg.
  - reflexivity.
  - cbn [map length seq]. f_equal.
    + apply (Hg 0%nat). reflexivity.
    + rewrite <- seq_shift, map_map. apply IH.
      intros n r Hn. apply (Hg (S n)). exact Hn.
Qed.

Lemma seq_from (a n : nat) :
  seq a n = map (fun k => (a + k)%nat) (seq 0 n).
Proof.
  revert a. induction n as [|n IH]; intros a.
  - reflexivity.
  - cbn [seq map]. f_equal; [lia|].
    rewrite <- (seq_shift n 0), map_map, (IH (S a)).
    apply map_ext. intros k. lia.
Qed.

Lemma projectSuperannuationBalance_length (clk : Clock)
    (inputs : SuperannuationInputs) :
  length (projectSuperannuationBalance clk inputs)
  = Z.to_nat (retirementAge inputs - currentAge inputs).
Proof.
  rewrite <- (length_map SuperYear.age).
  unfold projectSuperannuationBalance.
  rewrite superLoop_ages by reflexivity.
  now rewrite length_map, length_seq.
Qed.

(** X10.  [runForecast] never reads past the end of the accumulation
    sequence.  With retirementAge <= currentAge both projections are
    empty.  Otherwise the drawdown projection is not empty, has at most 35
    records, starts from the ending balance of the last accumulation year
    and at the age that follows it, the retirement age. *)
Theorem runForecast_links (clk : Clock) (inputs : SuperannuationInputs)
    (postInputs : PostRetirementInputs) :
  exists pre post,
    runForecast clk inputs postInputs = Some (pre, post)
    /\ pre = projectSuperannuationBalance clk inputs
    /\ ((retirementAge inputs <= currentAge inputs)%Z ->
        pre = [] /\ post = [])
    /\ ((currentAge inputs < retirementAge inputs)%Z ->
        exists lastPre firstPost rest,
          lastOf pre = Some lastPre
          /\ post = firstPost :: rest
          /\ (length post <= 35)%nat
          /\ PostYear.startingBalance firstPost
             = SuperYear.endingBalance lastPre
          /\ PostYear.age firstPost = retirementAge inputs
          /\ PostYear.age firstPost = (SuperYear.age lastPre + 1)%Z).
Proof.
  unfold runForecast.
  pose proof (projectSuperannuationBalance_length clk inputs) as Hlen.
  set (pre := projectSuperannuationBalance clk inputs) in *.
  destruct (Nat.ltb_spec 0 (length pre)) as [Hpos | Hzero].
  - destruct (lastOf_nonempty pre Hpos) as [lastPre Hlast].
    rewrite Hlast.
    eexists. eexists. split; [reflexivity|]. split; [reflexivity|].
    split; [intros Hle; lia|].
    intros _.
    destruct (projectPostRetirement_first
                (fun n => clk (length pre + n)%nat)
                (SuperYear.endingBalance lastPre) (retirementAge inputs)
                inputs postInputs DEFAULT_MAX_YEARS)
      as (firstPost & rest & E & Hs & Ha & _); [reflexivity|].
    exists lastPre, firstPost, rest.
    split; [exact Hlast|]. split; [exact E|].
    split.
    { unfold projectPostRetirement.
      apply (postLoop_length _ _ _ _ _ (Z.to_nat DEFAULT_MAX_YEARS)). }
    split; [exact Hs|]. split; [exact Ha|].
    rewrite Ha. unfold lastOf in Hlast. subst pre.
    unfold projectSuperannuationBalance in Hlast.
    destruct (superLoop_nth _ _ _ _ _ _ _ _ _ Hlast) as (b & -> & _).
    cbn [superYear SuperYear.age].
    unfold projectSuperannuationBalance in Hlen, Hpos.
    lia.
  - eexists. eexists. split; [reflexivity|]. split; [reflexivity|].
    split; [|intros Hlt; lia].
    intros _. split; [|reflexivity].
    destruct pre; [reflexivity | cbn [length] in Hzero; lia].
Qed.

Lemma runForecast_links_witness :
  exists pre post,
    runForecast (clockAt 2024)
      {| currentAge := 67; retirementAge := 30;
         currentBalance := 50000; annualSalary := 80000;
         voluntaryConcessionalContribution := 0;
         voluntaryNonConcessionalContribution := 0;
         expectedReturnRate := 7; salaryGrowthRate := 3;
         inflationRate := 2.5 |} DEFAULT_POST_RETIREMENT_INPUTS
    = Some (pre, post)
    /\ pre = [] /\ post = [].
Proof.
  destruct (runForecast_links (clockAt 2024)
              {| currentAge := 67; retirementAge := 30;
                 currentBalance := 50000; annualSalary := 80000;
                 voluntaryConcessionalContribution := 0;
                 voluntaryNonConcessionalContribution := 0;
                 expectedReturnRate := 7; salaryGrowthRate := 3;
                 inflationRate := 2.5 |} DEFAULT_POST_RETIREMENT_INPUTS)
    as (pre & post & E & _ & Hempty & _).
  exists pre, post. split; [exact E|]. apply Hempty. simpl. lia.
Defined.

(** X11.  Run within one calendar year, [runForecast] produces one
    contiguous timeline: the ages of the accumulation records followed by
    those of the drawdown records are currentAge, currentAge + 1, ..., and
    their calendar years are the current year, the next, and so on. *)
Theorem runForecast_timeline (thisYear : Z) (inputs : SuperannuationInputs)
    (postInputs : PostRetirementInputs)
    (pre : list SuperYear.SuperYearProjection)
    (post : list PostYear.PostRetirementYearProjection) :
  runForecast (clockAt thisYear) inputs postInputs = Some (pre, post) ->
  let n := (length pre + length post)%nat in
  map SuperYear.age pre ++ map PostYear.age post
  = map (fun k => (currentAge inputs + Z.of_nat k)%Z) (seq 0 n)
  /\ map SuperYear.year pre ++ map PostYear.year post
     = map (fun k => (thisYear + Z.of_nat k)%Z) (seq 0 n).
Proof.
  intros Hrun n. subst n.
  assert (Hpre : pre = projectSuperannuationBalance (clockAt thisYear)
                         inputs
                 /\ (post = []
                     \/ exists b,
                          (0 < length pre)%nat
                          /\ post = projectPostRetirement
                                      (fun k => clockAt thisYear
                                                  (length pre + k)%nat)
                                      b (retirementAge inputs) inputs
                                      postInputs DEFAULT_MAX_YEARS)).
  { unfold runForecast in Hrun.
    destruct (Nat.ltb_spec
                0 (length (projectSuperannuationBalance (clockAt thisYear)
                             inputs))) as [Hpos | Hzero].
    - destruct (lastOf _) as [lastPre|]; [|discriminate].
      injection Hrun as <- <-. split; [reflexivity|].
      right. eexists. split; [exact Hpos | reflexivity].
    - injection Hrun as <- <-. split; [reflexivity | left; reflexivity]. }
  destruct Hpre as [Epre Hpost].
  pose proof (projectSuperannuationBalance_length (clockAt thisYear) inputs)
    as Hlen.
  rewrite <- Epre in Hlen.
  rewrite seq_app, !map_app. cbn [Nat.add].
  assert (Hages : map SuperYear.age pre
                  = map (fun k => (currentAge inputs + Z.of_nat k)%Z)
                        (seq 0 (length pre))).
  { apply map_by_index. intros k r Hk. rewrite Epre in Hk.
    unfold projectSuperannuationBalance in Hk.
    destruct (superLoop_nth _ _ _ _ _ _ _ _ _ Hk) as (b & -> & _).
    reflexivity. }
  assert (Hyears : map SuperYear.year pre
                   = map (fun k => (thisYear + Z.of_nat k)%Z)
                         (seq 0 (length pre))).
  { apply map_by_index. intros k r Hk. rewrite Epre in Hk.
    unfold projectSuperannuationBalance in Hk.
    rewrite (superLoop_year _ _ _ _ _ _ _ _ _ Hk).
    unfold clockAt. f_equal. lia. }
  rewrite Hages, Hyears.
  destruct Hpost as [-> | (b & Hpos & Epost)].
  - split; reflexivity.
  - assert (Hret : retirementAge inputs
                   = (currentAge inputs + Z.of_nat (length pre))%Z)
      by lia.
    split; f_equal.
    + rewrite (seq_from (length pre)), map_map.
      apply map_by_index. intros k r Hk. rewrite Epost in Hk.
      unfold projectPostRetirement in Hk.
      destruct (postLoop_nth _ _ _ _ _ _ _ _ _ _ _ Hk)
        as (b' & -> & _ & _).
      cbn [postYear fst PostYear.age]. lia.
    + rewrite (seq_from (length pre)), map_map.
      apply map_by_index. intros k r Hk. rewrite Epost in Hk.
      unfold projectPostRetirement in Hk.
      destruct (postLoop_nth _ _ _ _ _ _ _ _ _ _ _ Hk)
        as (b' & -> & _ & _).
      cbn [postYear fst PostYear.year]. unfold clockAt. lia.
Qed.

Lemma runForecast_timeline_witness :
  let r := superYear oneYearInputs 2024 30 0 80000 in
  let p := fst (postYear 31 oneYearInputs DEFAULT_POST_RETIREMENT_INPUTS
                  2024 0 (SuperYear.endingBalance r) 60000) in
  map SuperYear.age [r] ++ map PostYear.age [p]
  = map (fun k => (currentAge oneYearInputs + Z.of_nat k)%Z) (seq 0 2)
  /\ map SuperYear.year [r] ++ map PostYear.year [p]
     = map (fun k => (2024 + Z.of_nat k)%Z) (seq 0 2).
Proof.
  apply (runForecast_timeline 2024 oneYearInputs
           DEFAULT_POST_RETIREMENT_INPUTS
           [superYear oneYearInputs 2024 30 0 80000]
           [fst (postYear 31 oneYearInputs DEFAULT_POST_RETIREMENT_INPUTS
                   2024 0
                   (SuperYear.endingBalance
                      (superYear oneYearInputs 2024 30 0 80000))
                   60000)]).
  vm_compute. reflexivity.
Defined.

(** X12.  The depletion signal.  For a drawdown projection over a horizon
    of at least one year: when [superDepletesAtAge] is an age, it is
    retirementAge + yearsInRetirement - 1 and the last record ends at
    balance 0; when it is null the projection ran the full horizon and its
    last record ends with a positive balance.  So a projection that stops
    short of the horizon always reports a depletion age. *)
Theorem depletion_signal (clk : Clock) (startingRetirementBalance : Q)
    (retAge : Z) (superInputs : SuperannuationInputs)
    (postInputs : PostRetirementInputs) (maxYears : Z) :
  (0 < maxYears)%Z ->
  let post := projectPostRetirement clk startingRetirementBalance retAge
                superInputs postInputs maxYears in
  (forall a, superDepletesAtAge post = Some a ->
     a = (retAge + Z.of_nat (yearsInRetirement post) - 1)%Z
     /\ exists r, lastOf post = Some r /\ PostYear.endingBalance r == 0)
  /\ (superDepletesAtAge post = None ->
      Z.of_nat (yearsInRetirement post) = maxYears
      /\ exists r, lastOf post = Some r /\ 0 < PostYear.endingBalance r)
  /\ ((Z.of_nat (yearsInRetirement post) < maxYears)%Z ->
      superDepletesAtAge post <> None).
Proof.
  intros Hmax post.
  assert (Hpos : (0 < length post)%nat).
  { destruct (projectPostRetirement_first clk startingRetirementBalance
                retAge superInputs postInputs maxYears Hmax)
      as (r & rest & E & _).
    subst post. rewrite E. cbn [length]. lia. }
  destruct (lastOf_nonempty post Hpos) as [r Hlast].
  assert (Hr : PostYear.age r = (retAge + Z.of_nat (length post) - 1)%Z
               /\ PostYear.endingBalance r
                  = JS.Math_max 0 (computedEndingBalance r)).
  { unfold lastOf in Hlast. subst post.
    unfold projectPostRetirement in Hlast, Hpos |- *.
    destruct (postLoop_nth _ _ _ _ _ _ _ _ _ _ _ Hlast)
      as (b' & Hr & _ & _).
    rewrite Hr. cbn [postYear fst PostYear.age PostYear.endingBalance].
    split; [lia | reflexivity]. }
  destruct Hr as [Hage Hend].
  assert (Hnone : superDepletesAtAge post = None ->
                  Z.of_nat (yearsInRetirement post) = maxYears
                  /\ exists r, lastOf post = Some r
                               /\ 0 < PostYear.endingBalance r).
  { unfold superDepletesAtAge, yearsInRetirement. rewrite Hlast.
    destruct (Nat.ltb_spec 0 (length post)); [|lia]. cbn [andb option_map].
    js_test (JS.le (PostYear.endingBalance r) 0); [discriminate|].
    intros _. split; [|exists r; split; [reflexivity | exact E]].
    assert (Hlen : (length post <= Z.to_nat maxYears)%nat)
      by (subst post; unfold projectPostRetirement;
          apply postLoop_length).
    destruct (Nat.eq_dec (length post) (Z.to_nat maxYears)) as [Heq | Hne];
      [lia|].
    exfalso. subst post. unfold projectPostRetirement in *.
    destruct (postLoop_short clk retAge superInputs postInputs maxYears
                (Z.to_nat maxYears) 0 startingRetirementBalance
                (annualLivingExpenses postInputs))
      as (n & r' & Hn & Hdep); [f_equal; lia | lia | lia |].
    pose proof (postLoop_depleted_last _ _ _ _ _ _ _ _ _ _ _ Hn Hdep)
      as Hlast'.
    unfold lastOf in Hlast. rewrite Hlast' in Hlast.
    replace (S n - 1)%nat with n in Hlast by lia.
    rewrite Hn in Hlast. injection Hlast as ->.
    rewrite Hend in E. js_max 0 (computedEndingBalance r); lra. }
  split; [|split].
  - intros a. unfold superDepletesAtAge, yearsInRetirement. rewrite Hlast.
    destruct (Nat.ltb_spec 0 (length post)); [|lia]. cbn [andb option_map].
    js_test (JS.le (PostYear.endingBalance r) 0); [|discriminate].
    intros [= <-]. split; [exact Hage|].
    exists r. split; [reflexivity|].
    rewrite Hend in E |- *. js_max 0 (computedEndingBalance r); lra.
  - exact Hnone.
  - intros Hshort Hn. apply Hnone in Hn. lia.
Qed.

Lemma depletion_signal_witness :
  67%Z
  = (67 + Z.of_nat
            (yearsInRetirement
               (projectPostRetirement (clockAt 2024) 10000 67
                  flatInputs DEFAULT_POST_RETIREMENT_INPUTS
                  DEFAULT_MAX_YEARS)) - 1)%Z
  /\ exists r,
       lastOf (projectPostRetirement (clockAt 2024) 10000 67 flatInputs
                 DEFAULT_POST_RETIREMENT_INPUTS DEFAULT_MAX_YEARS)
       = Some r
       /\ PostYear.endingBalance r == 0.
Proof.
  apply (proj1 (depletion_signal (clockAt 2024) 10000 67 flatInputs
                  DEFAULT_POST_RETIREMENT_INPUTS DEFAULT_MAX_YEARS
                  eq_refl)).
  vm_compute. reflexivity.
Defined.

(** X13.  [estimatedRetirementBalance] of an accumulation projection is
    always defined; it is the current balance when there is no year to
    project, and with non-negative balance, salary, contributions and
    return rate (and a salary growth rate of at least -100) it is never
    below the current balance. *)
Theorem estimatedRetirementBalance_bounds (clk : Clock)
    (inputs : SuperannuationInputs) :
  exists x,
    estimatedRetirementBalance (projectSuperannuationBalance clk inputs)
      inputs = Some x
    /\ ((retirementAge inputs <= currentAge inputs)%Z ->
        x = currentBalance inputs)
    /\ (0 <= currentBalance inputs -> 0 <= annualSalary inputs ->
        0 <= voluntaryConcessionalContribution inputs ->
        0 <= voluntaryNonConcessionalContribution inputs ->
        0 <= expectedReturnRate inputs ->
        -100 <= salaryGrowthRate inputs ->
        currentBalance inputs <= x).
Proof.
  unfold estimatedRetirementBalance.
  pose proof (projectSuperannuationBalance_length clk inputs) as Hlen.
  destruct (Nat.ltb_spec 0 (length (projectSuperannuationBalance clk
                                      inputs))) as [Hpos | Hzero].
  - destruct (lastOf_nonempty _ Hpos) as [r Hlast]. rewrite Hlast.
    exists (SuperYear.endingBalance r).
    split; [reflexivity|]. split; [intros Hle; lia|].
    intros Hb Hs Hvc Hvn Hrate Hgrowth.
    unfold lastOf in Hlast.
    destruct (nth_error (projectSuperannuationBalance clk inputs) 0)
      as [r0|] eqn:H0; [|apply nth_error_None in H0; lia].
    pose proof (superLoop_monotone clk inputs Hvc Hvn Hrate Hgrowth
                  _ _ _ _ _ Hb Hs _ 0%nat r0 r (Nat.le_0_l _) H0 Hlast)
      as Hmono.
    pose proof (superLoop_first_start _ _ _ _ _ _ _ _ H0) as Hfirst.
    destruct (superLoop_grows clk inputs Hvc Hvn Hrate Hgrowth
                _ _ _ _ _ r Hb Hs (nth_error_In _ _ Hlast))
      as (_ & Hgrow & _).
    rewrite Hfirst in Hmono. lra.
  - exists (currentBalance inputs).
    split; [reflexivity|]. split; [reflexivity|]. intros. lra.
Qed.

Lemma estimatedRetirementBalance_bounds_witness :
  exists x,
    estimatedRetirementBalance
      (projectSuperannuationBalance (clockAt 2024) oneYearInputs)
      oneYearInputs = Some x
    /\ currentBalance oneYearInputs <= x.
Proof.
  destruct (estimatedRetirementBalance_bounds (clockAt 2024) oneYearInputs)
    as (x & E & _ & H).
  exists x. split; [exact E|].
  apply H; vm_compute; discriminate.
Defined.

(** * The budget forecast *)

Section BudgetForecast.

Import Budget.

Variable forecastInputs : BudgetForecastInputs.
Variable currentActualYear : Z.

Lemma forecastLoop_nth (fuel : nat) :
  forall i inc exp k r,
    (0 <= i)%Z ->
    nth_error (forecastLoop forecastInputs currentActualYear fuel i inc exp)
      k = Some r ->
    year r = (i + Z.of_nat k + 1)%Z
    /\ actualYear r = (currentActualYear + (i + Z.of_nat k))%Z
    /\ projectedIncome r
       == inc * (1 + incomeGrowthRate forecastInputs / 100)
                ^ Z.of_nat (growthSteps i k)
    /\ projectedExpenses r
       == exp * (1 + expenseGrowthRate forecastInputs / 100)
                ^ Z.of_nat (growthSteps i k)
    /\ projectedNetBalance r = projectedIncome r - projectedExpenses r.
Proof.
  induction fuel as [|fuel IH]; intros i inc exp k r Hi Hk.
  - destruct k; discriminate.
  - cbn [forecastLoop] in Hk.
    destruct (i <? forecastYears forecastInputs)%Z;
      [|destruct k; discriminate].
    destruct k as [|k].
    + injection Hk as <-.
      cbn [year actualYear projectedIncome projectedExpenses
           projectedNetBalance].
      unfold growthSteps.
      destruct (0 <? i)%Z;
        (split; [lia|]); (split; [f_equal; lia|]);
        (split; [|split; [|reflexivity]]).
      * change (Z.of_nat 1) with 1%Z. rewrite Qpower_1_r. reflexivity.
      * change (Z.of_nat 1) with 1%Z. rewrite Qpower_1_r. reflexivity.
      * cbn [Z.of_nat Qpower]. ring.
      * cbn [Z.of_nat Qpower]. ring.
    + cbn [nth_error] in Hk.
      apply IH in Hk; [|lia].
      destruct Hk as (Hy & Ha & Hinc & Hexp & Hnet).
      split; [lia|]. split; [lia|].
      split; [|split; [|exact Hnet]].
      * rewrite Hinc. unfold growthSteps.
        destruct (Z.ltb_spec 0 (i + 1)); [|lia].
        destruct (0 <? i)%Z.
        -- replace (Z.of_nat (S (S k))) with (1 + Z.of_nat (S k))%Z by lia.
           rewrite (Qpower_plus' _ 1 (Z.of_nat (S k))) by lia.
           rewrite Qpower_1_r. ring.
        -- reflexivity.
      * rewrite Hexp. unfold growthSteps.
        destruct (Z.ltb_spec 0 (i + 1)); [|lia].
        destruct (0 <? i)%Z.
        -- replace (Z.of_nat (S (S k))) with (1 + Z.of_nat (S k))%Z by lia.
           rewrite (Qpower_plus' _ 1 (Z.of_nat (S k))) by lia.
           rewrite Qpower_1_r. ring.
        -- reflexivity.
Qed.

Lemma forecastLoop_length (fuel : nat) :
  forall i inc exp,
    fuel = Z.to_nat (forecastYears forecastInputs - i) ->
    length (forecastLoop forecastInputs currentActualYear fuel i inc exp)
    = fuel.
Proof.
  induction fuel as [|fuel IH]; intros i inc exp Hfuel.
  - reflexivity.
  - cbn [forecastLoop].
    destruct (Z.ltb_spec i (forecastYears forecastInputs)); [|lia].
    cbn [length]. f_equal. apply IH. lia.
Qed.

(** More fuel than the horizon needs changes nothing. *)
Lemma forecastLoop_fuel (fuel : nat) :
  forall extra i inc exp,
    (Z.to_nat (forecastYears forecastInputs - i) <= fuel)%nat ->
    forecastLoop forecastInputs currentActualYear (fuel + extra) i inc exp
    = forecastLoop forecastInputs currentActualYear fuel i inc exp.
Proof.
  induction fuel as [|fuel IH]; intros extra i inc exp Hfuel.
  - destruct extra as [|extra]; [reflexivity|]. cbn [Nat.add forecastLoop].
    destruct (Z.ltb_spec i (forecastYears forecastInputs));
      [lia | reflexivity].
  - cbn [Nat.add forecastLoop].
    destruct (Z.ltb_spec i (forecastYears forecastInputs)); [|reflexivity].
    f_equal. apply IH. lia.
Qed.

(** A budget in surplus stays in surplus when income grows at least as
    fast as expenses. *)
Lemma forecastLoop_surplus (fuel : nat) :
  -100 <= expenseGrowthRate forecastInputs ->
  expenseGrowthRate forecastInputs <= incomeGrowthRate forecastInputs ->
  forall i inc exp r,
    0 <= exp -> exp <= inc ->
    In r (forecastLoop forecastInputs currentActualYear fuel i inc exp) ->
    0 <= projectedExpenses r
    /\ projectedExpenses r <= projectedIncome r
    /\ 0 <= projectedNetBalance r.
Proof.
  intros Hlo Hge.
  assert (HfE : 0 <= 1 + expenseGrowthRate forecastInputs / 100).
  { setoid_replace (1 + expenseGrowthRate forecastInputs / 100)
      with ((expenseGrowthRate forecastInputs + 100) / 100) by field.
    apply Qle_shift_div_l; lra. }
  assert (HfI : 1 + expenseGrowthRate forecastInputs / 100
                <= 1 + incomeGrowthRate forecastInputs / 100).
  { assert (0 <= (incomeGrowthRate forecastInputs
                  - expenseGrowthRate forecastInputs) / 100)
      by (apply Qle_shift_div_l; lra).
    setoid_replace (1 + incomeGrowthRate forecastInputs / 100)
      with (1 + expenseGrowthRate forecastInputs / 100
            + (incomeGrowthRate forecastInputs
               - expenseGrowthRate forecastInputs) / 100) by field.
    lra. }
  induction fuel as [|fuel IH]; intros i inc exp r Hexp Hinc Hin;
    cbn [forecastLoop] in Hin.
  - contradiction.
  - destruct (i <? forecastYears forecastInputs)%Z; [|contradiction].
    set (inc' := if (0 <? i)%Z
                 then inc * (1 + incomeGrowthRate forecastInputs / 100)
                 else inc) in *.
    set (exp' := if (0 <? i)%Z
                 then exp * (1 + expenseGrowthRate forecastInputs / 100)
                 else exp) in *.
    assert (Hinv : 0 <= exp' /\ exp' <= inc').
    { subst inc' exp'. destruct (0 <? i)%Z; [|split; assumption].
      split; [apply Qmult_le_0_compat; assumption|].
      apply Qle_trans
        with (inc * (1 + expenseGrowthRate forecastInputs / 100)).
      - apply Qmult_le_compat_r; assumption.
      - rewrite !(Qmult_comm inc).
        apply Qmult_le_compat_r; [assumption | lra]. }
    destruct Hinv as [H0 H1].
    destruct Hin as [<- | Hin].
    + cbn [projectedExpenses projectedIncome projectedNetBalance].
      repeat split; lra.
    + eapply IH; eassumption.
Qed.

End BudgetForecast.

(** The two ways [handleGenerateForecast] produces a forecast. *)
Lemma handleGenerateForecast_Some (clk : Clock)
    (forecastInputs : Budget.BudgetForecastInputs)
    (annualizedIncome annualizedExpenses : option Q)
    (transactions : list Budget.Transaction)
    (l : list Budget.ProjectedBudgetYear) :
  Budget.handleGenerateForecast clk forecastInputs annualizedIncome
    annualizedExpenses transactions = Some l ->
  exists baseIncome baseExpenses,
    l = Budget.forecastLoop forecastInputs (clk 0%nat)
          (Z.to_nat (Budget.forecastYears forecastInputs)) 0
          baseIncome baseExpenses
    /\ ((Budget.baselineSource forecastInputs = Budget.Manual
         /\ baseIncome = Budget.baselineAnnualIncome forecastInputs
         /\ baseExpenses = Budget.baselineAnnualExpenses forecastInputs)
        \/ (Budget.baselineSource forecastInputs = Budget.Transactions
            /\ annualizedIncome = Some baseIncome
            /\ annualizedExpenses = Some baseExpenses
            /\ transactions <> [])).
Proof.
  unfold Budget.handleGenerateForecast.
  destruct (Budget.baselineSource forecastInputs) eqn:Esrc.
  - intros [= <-]. eexists. eexists. split; [reflexivity|].
    left. repeat split; reflexivity.
  - destruct annualizedIncome as [bi|]; [|discriminate].
    destruct annualizedExpenses as [be|]; [|discriminate].
    destruct transactions as [|t ts]; [discriminate|].
    cbn [length Nat.ltb Nat.leb]. intros [= <-].
    exists bi, be. split; [reflexivity|].
    right. repeat split; discriminate.
Qed.

(** X14.  [handleGenerateForecast] gives no forecast (the alert) exactly
    when the baseline is to come from the transactions and an annualized
    figure is missing or there is no transaction; otherwise it gives one
    record per forecast year, max(0, forecastYears) of them. *)
Theorem budget_forecast_availability (clk : Clock)
    (forecastInputs : Budget.BudgetForecastInputs)
    (annualizedIncome annualizedExpenses : option Q)
    (transactions : list Budget.Transaction) :
  let result :=
    Budget.handleGenerateForecast clk forecastInputs annualizedIncome
      annualizedExpenses transactions in
  (result = None
   <-> Budget.baselineSource forecastInputs = Budget.Transactions
       /\ (annualizedIncome = None \/ annualizedExpenses = None
           \/ transactions = []))
  /\ (forall l, result = Some l ->
        Z.of_nat (length l)
        = Z.max 0 (Budget.forecastYears forecastInputs)).
Proof.
  intros result. split.
  - subst result. unfold Budget.handleGenerateForecast.
    destruct (Budget.baselineSource forecastInputs).
    + split; [discriminate | intros [? _]; discriminate].
    + destruct annualizedIncome as [bi|];
        [|split; [intros _; split; [reflexivity | left; reflexivity]
                 | reflexivity]].
      destruct annualizedExpenses as [be|];
        [|split; [intros _; split;
                    [reflexivity | right; left; reflexivity]
                 | reflexivity]].
      destruct transactions as [|t ts].
      * split; [intros _; split;
                  [reflexivity | right; right; reflexivity]
               | reflexivity].
      * cbn [length Nat.ltb Nat.leb]. split; [discriminate|].
        intros [_ [H | [H | H]]]; discriminate.
  - intros l Hl.
    destruct (handleGenerateForecast_Some _ _ _ _ _ _ Hl)
      as (bi & be & -> & _).
    rewrite forecastLoop_length by (f_equal; lia). lia.
Qed.

Lemma budget_forecast_availability_witness :
  Z.of_nat
    (length
       (Budget.forecastLoop Budget.initialForecastInputs 2024 5 0
          60000 40000))
  = Z.max 0 (Budget.forecastYears Budget.initialForecastInputs).
Proof.
  apply (budget_forecast_availability (clockAt 2024)
           Budget.initialForecastInputs None None []).
  reflexivity.
Defined.

(** X15.  In a forecast the k-th record is year k + 1, calendar year
    (current year) + k; its income is the baseline income grown k times
    at the income growth rate and its expenses the baseline expenses grown
    k times at the expense growth rate, so the first year is the baseline
    itself; the net balance is income minus expenses.  The baseline is the
    manual one, or the annualized figures when the source is the
    transactions. *)
Theorem budget_forecast_years (clk : Clock)
    (forecastInputs : Budget.BudgetForecastInputs)
    (annualizedIncome annualizedExpenses : option Q)
    (transactions : list Budget.Transaction)
    (l : list Budget.ProjectedBudgetYear) :
  Budget.handleGenerateForecast clk forecastInputs annualizedIncome
    annualizedExpenses transactions = Some l ->
  exists baseIncome baseExpenses,
    ((Budget.baselineSource forecastInputs = Budget.Manual
      /\ baseIncome = Budget.baselineAnnualIncome forecastInputs
      /\ baseExpenses = Budget.baselineAnnualExpenses forecastInputs)
     \/ (Budget.baselineSource forecastInputs = Budget.Transactions
         /\ annualizedIncome = Some baseIncome
         /\ annualizedExpenses = Some baseExpenses))
    /\ forall k r, nth_error l k = Some r ->
         Budget.year r = (Z.of_nat k + 1)%Z
         /\ Budget.actualYear r = (clk 0%nat + Z.of_nat k)%Z
         /\ Budget.projectedIncome r
            == baseIncome
               * (1 + Budget.incomeGrowthRate forecastInputs / 100)
                 ^ Z.of_nat k
         /\ Budget.projectedExpenses r
            == baseExpenses
               * (1 + Budget.expenseGrowthRate forecastInputs / 100)
                 ^ Z.of_nat k
         /\ Budget.projectedNetBalance r
            = Budget.projectedIncome r - Budget.projectedExpenses r.
Proof.
  intros Hl.
  destruct (handleGenerateForecast_Some _ _ _ _ _ _ Hl)
    as (bi & be & -> & Hbase).
  exists bi, be. split.
  - destruct Hbase as [H | (H1 & H2 & H3 & _)]; [left | right];
      repeat split; tauto.
  - intros k r Hk.
    destruct (forecastLoop_nth _ _ _ _ _ _ _ _ (Z.le_refl 0) Hk)
      as (Hy & Ha & Hinc & Hexp & Hnet).
    unfold Budget.growthSteps in Hinc, Hexp.
    change (0 <? 0)%Z with false in Hinc, Hexp.
    repeat split; try assumption; lia.
Qed.

Lemma budget_forecast_years_witness :
  let r := {| Budget.year := 1; Budget.actualYear := 2024;
              Budget.projectedIncome := 60000;
              Budget.projectedExpenses := 40000;
              Budget.projectedNetBalance := 60000 - 40000 |} in
  Budget.year r = (Z.of_nat 0 + 1)%Z
  /\ Budget.actualYear r = (2024 + Z.of_nat 0)%Z.
Proof.
  destruct (budget_forecast_years (clockAt 2024)
              Budget.initialForecastInputs None None []
              (Budget.forecastLoop Budget.initialForecastInputs 2024 5 0
                 60000 40000) eq_refl)
    as (bi & be & _ & H).
  intros r. destruct (H 0%nat r eq_refl) as (Hy & Ha & _).
  split; assumption.
Defined.

(** X16.  A forecast from a manual baseline in surplus, with non-negative
    expenses,
    an expense growth rate of at least -100 and an income growth rate at
    least as high, never shows a deficit: every projected net balance is
    non-negative. *)
Theorem budget_surplus_preserved (clk : Clock)
    (forecastInputs : Budget.BudgetForecastInputs)
    (annualizedIncome annualizedExpenses : option Q)
    (transactions : list Budget.Transaction)
    (l : list Budget.ProjectedBudgetYear)
    (r : Budget.ProjectedBudgetYear) :
  Budget.baselineSource forecastInputs = Budget.Manual ->
  0 <= Budget.baselineAnnualExpenses forecastInputs ->
  Budget.baselineAnnualExpenses forecastInputs
  <= Budget.baselineAnnualIncome forecastInputs ->
  -100 <= Budget.expenseGrowthRate forecastInputs ->
  Budget.expenseGrowthRate forecastInputs
  <= Budget.incomeGrowthRate forecastInputs ->
  Budget.handleGenerateForecast clk forecastInputs annualizedIncome
    annualizedExpenses transactions = Some l ->
  In r l ->
  0 <= Budget.projectedExpenses r
  /\ Budget.projectedExpenses r <= Budget.projectedIncome r
  /\ 0 <= Budget.projectedNetBalance r.
Proof.
  intros Hsrc Hexp Hinc Hlo Hge Hl Hin.
  unfold Budget.handleGenerateForecast in Hl. rewrite Hsrc in Hl.
  injection Hl as <-.
  eapply forecastLoop_surplus; eassumption.
Qed.

Lemma budget_surplus_preserved_witness :
  let r := {| Budget.year := 1; Budget.actualYear := 2024;
              Budget.projectedIncome := 60000;
              Budget.projectedExpenses := 40000;
              Budget.projectedNetBalance := 60000 - 40000 |} in
  0 <= Budget.projectedExpenses r
  /\ Budget.projectedExpenses r <= Budget.projectedIncome r
  /\ 0 <= Budget.projectedNetBalance r.
Proof.
  apply (budget_surplus_preserved (clockAt 2024)
           Budget.surplusForecastInputs None None []
           (Budget.forecastLoop Budget.surplusForecastInputs 2024 2 0
              60000 40000)).
  - reflexivity.
  - vm_compute. discriminate.
  - vm_compute. discriminate.
  - vm_compute. discriminate.
  - vm_compute. discriminate.
  - reflexivity.
  - left. reflexivity.
Defined.

(** * Budget totals and deletion *)

Lemma sum_amounts_from (l : list Budget.Transaction) :
  forall a,
    fold_left (fun sum t => sum + Budget.amount t) l a
    == a + fold_left (fun sum t => sum + Budget.amount t) l 0.
Proof.
  induction l as [|t l IH]; intros a; cbn [fold_left].
  - ring.
  - rewrite (IH (a + Budget.amount t)), (IH (0 + Budget.amount t)). ring.
Qed.

Lemma totalIncome_cons (t : Budget.Transaction)
    (l : list Budget.Transaction) :
  Budget.totalIncome (t :: l)
  == (if Budget.isIncome t then Budget.amount t else 0)
     + Budget.totalIncome l.
Proof.
  unfold Budget.totalIncome. cbn [filter].
  destruct (Budget.isIncome t); cbn [fold_left].
  - rewrite sum_amounts_from. ring.
  - ring.
Qed.

Lemma totalExpenses_cons (t : Budget.Transaction)
    (l : list Budget.Transaction) :
  Budget.totalExpenses (t :: l)
  == (if Budget.isExpense t then Budget.amount t else 0)
     + Budget.totalExpenses l.
Proof.
  unfold Budget.totalExpenses. cbn [filter].
  destruct (Budget.isExpense t); cbn [fold_left].
  - rewrite sum_amounts_from. ring.
  - ring.
Qed.

Lemma totalIncome_app (l1 l2 : list Budget.Transaction) :
  Budget.totalIncome (l1 ++ l2)
  == Budget.totalIncome l1 + Budget.totalIncome l2.
Proof.
  induction l1 as [|t l1 IH]; cbn [app].
  - unfold Budget.totalIncome at 2. cbn. ring.
  - rewrite !totalIncome_cons, IH. ring.
Qed.

Lemma totalExpenses_app (l1 l2 : list Budget.Transaction) :
  Budget.totalExpenses (l1 ++ l2)
  == Budget.totalExpenses l1 + Budget.totalExpenses l2.
Proof.
  induction l1 as [|t l1 IH]; cbn [app].
  - unfold Budget.totalExpenses at 2. cbn. ring.
  - rewrite !totalExpenses_cons, IH. ring.
Qed.

(** X17.  Every transaction counts in exactly one of the two totals: total
    income plus total expenses is the sum of all amounts; and the totals,
    hence the net balance, of two lists put together are the sums of
    theirs. *)
Theorem totals_partition (l1 l2 : list Budget.Transaction) :
  Budget.totalIncome l1 + Budget.totalExpenses l1
  == fold_left (fun sum t => sum + Budget.amount t) l1 0
  /\ Budget.totalIncome (l1 ++ l2)
     == Budget.totalIncome l1 + Budget.totalIncome l2
  /\ Budget.totalExpenses (l1 ++ l2)
     == Budget.totalExpenses l1 + Budget.totalExpenses l2
  /\ Budget.netBalance (l1 ++ l2)
     == Budget.netBalance l1 + Budget.netBalance l2.
Proof.
  split; [|split; [apply totalIncome_app
                  | split; [apply totalExpenses_app|]]].
  - induction l1 as [|t l1 IH].
    + cbn. ring.
    + rewrite totalIncome_cons, totalExpenses_cons. cbn [fold_left].
      rewrite (sum_amounts_from l1 (0 + Budget.amount t)), <- IH.
      unfold Budget.isIncome, Budget.isExpense.
      destruct (Budget.type t); ring.
  - unfold Budget.netBalance.
    rewrite totalIncome_app, totalExpenses_app. ring.
Qed.

(** X18.  Deleting a transaction, once confirmed, removes every
    transaction with that id and nothing else, keeps the others in their
    order, and lowers each total by what the removed transactions
    contributed; declined, it changes nothing. *)
Theorem delete_removes_exactly (targetId : String.string)
    (transactions : list Budget.Transaction) :
  let kept := Budget.handleDeleteTransaction true targetId transactions in
  let removed :=
    filter (fun t => String.eqb (Budget.id t) targetId) transactions in
  (forall t, In t kept <-> In t transactions /\ Budget.id t <> targetId)
  /\ Budget.totalIncome transactions
     == Budget.totalIncome kept + Budget.totalIncome removed
  /\ Budget.totalExpenses transactions
     == Budget.totalExpenses kept + Budget.totalExpenses removed
  /\ (forall others,
        (forall t, In t others -> Budget.id t <> targetId) ->
        Budget.handleDeleteTransaction true targetId others = others)
  /\ Budget.handleDeleteTransaction false targetId transactions
     = transactions.
Proof.
  intros kept removed. subst kept removed.
  unfold Budget.handleDeleteTransaction.
  split; [|split; [|split; [|split]]].
  - intros t. rewrite filter_In, negb_true_iff.
    split; intros [Hin Hid]; (split; [exact Hin|]).
    + intros Heq. apply String.eqb_eq in Heq. congruence.
    + destruct (String.eqb_spec (Budget.id t) targetId);
        [contradiction | reflexivity].
  - induction transactions as [|t l IH]; cbn [filter].
    + cbn. ring.
    + destruct (String.eqb (Budget.id t) targetId); cbn [negb];
        rewrite !totalIncome_cons, IH; ring.
  - induction transactions as [|t l IH]; cbn [filter].
    + cbn. ring.
    + destruct (String.eqb (Budget.id t) targetId); cbn [negb];
        rewrite !totalExpenses_cons, IH; ring.
  - intros others Hothers.
    induction others as [|t l IH]; [reflexivity|]. cbn [filter].
    destruct (String.eqb_spec (Budget.id t) targetId) as [Heq | Hne].
    + exfalso. apply (Hothers t); [left; reflexivity | exact Heq].
    + cbn [negb]. f_equal. apply IH.
      intros t' Ht'. apply Hothers. right. exact Ht'.
  - reflexivity.
Qed.

Lemma delete_removes_exactly_witness :
  Budget.handleDeleteTransaction true
    BudgetSamples.sampleId
    (filter (fun t => negb (String.eqb (Budget.id t)
                              BudgetSamples.sampleId))
       BudgetSamples.sampleTransactions)
  = filter (fun t => negb (String.eqb (Budget.id t)
                             BudgetSamples.sampleId))
      BudgetSamples.sampleTransactions.
Proof.
  apply (delete_removes_exactly
           BudgetSamples.sampleId
           BudgetSamples.sampleTransactions).
  intros t Ht. vm_compute in Ht.
  destruct Ht as [<- | []]. vm_compute. discriminate.
Defined.

(** X19.  Consecutive drawdown years are chained: a record that is
    followed by another ended with a positive balance, and the next year
    starts from exactly that recorded ending balance. *)
Theorem drawdown_carry (clk : Clock) (startingRetirementBalance : Q)
    (retAge : Z) (superInputs : SuperannuationInputs)
    (postInputs : PostRetirementInputs) (maxYears : Z)
    (n : nat) (r r' : PostYear.PostRetirementYearProjection) :
  nth_error (projectPostRetirement clk startingRetirementBalance retAge
               superInputs postInputs maxYears) n = Some r ->
  nth_error (projectPostRetirement clk startingRetirementBalance retAge
               superInputs postInputs maxYears) (S n) = Some r' ->
  0 < PostYear.endingBalance r
  /\ PostYear.startingBalance r' = PostYear.endingBalance r.
Proof.
  intros Hn HSn. unfold projectPostRetirement in Hn, HSn.
  destruct (postLoop_next _ _ _ _ _ _ _ _ _ _ _ _ Hn HSn) as [Hpos Hcarry].
  assert (Hend : PostYear.endingBalance r = computedEndingBalance r).
  { destruct (postLoop_nth _ _ _ _ _ _ _ _ _ _ _ Hn) as (b' & Hr & _ & _).
    rewrite Hr in Hpos |- *. unfold computedEndingBalance in *.
    cbn [postYear fst PostYear.endingBalance PostYear.startingBalance
         PostYear.investmentReturns PostYear.drawdown] in Hpos |- *.
    unfold JS.Math_max.
    match goal with
    | |- (if Qle_bool 0 ?e then _ else _) = _ =>
        destruct (Qle_bool 0 e) eqn:E; [reflexivity|];
        apply Qle_bool_false in E; lra
    end. }
  rewrite Hend. split; assumption.
Qed.

Lemma drawdown_carry_witness :
  let p := postYear 67 flatInputs DEFAULT_POST_RETIREMENT_INPUTS
             2024 0 70000 60000 in
  let p' := postYear 67 flatInputs DEFAULT_POST_RETIREMENT_INPUTS
              2024 1 (snd p) (60000 * (1 + 0 / 100)) in
  0 < PostYear.endingBalance (fst p)
  /\ PostYear.startingBalance (fst p') = PostYear.endingBalance (fst p).
Proof.
  apply (drawdown_carry (clockAt 2024) 70000 67 flatInputs
           DEFAULT_POST_RETIREMENT_INPUTS DEFAULT_MAX_YEARS 0).
  - vm_compute. reflexivity.
  - vm_compute. reflexivity.
Defined.
